(** * JsonSchemaValidator: a shallow embedding of [validator.py]

    The validator walks a decoded JSON document against a decoded JSON
    schema and accumulates messages in [self.errors].  The embedding keeps
    the shape of the Python code: every method of the class is a
    definition of the same name, the instance attribute [errors] is the
    state of a small state-and-exception monad, and the Python built-ins
    the methods rely on ([isinstance], [==], [in], iteration, [str]) are
    written out for the values [json.loads] can produce.  The [/validate]
    route that wraps the class follows the class.

    Two limits of the interpreter stay outside: the recursion limit, so
    that documents are taken to nest less deeply than it allows, and the
    identity of objects, which [in] consults before [==] and which a
    document and a schema decoded separately do not share. *)

From Stdlib Require Import ZArith List String Ascii Bool Lia Arith.
From Stdlib Require Import Decimal DecimalString.
From Stdlib Require Import Floats.SpecFloat.
Import ListNotations.
Open Scope string_scope.
Set Warnings "-register-all".

(** ** Python values produced by [json.loads] *)

(** [None], [bool], [int], [float], [str], [list] and [dict] with string
    keys.  A [dict] keeps its insertion order, which is the order in which
    [obj.items()] is traversed, so it is an association list.  A [str] is a
    sequence of characters; [ascii] stands for the character type.  A
    [float] is a binary64 number in the canonical form of [SpecFloat]. *)
Inductive pyval : Type :=
| VNone
| VBool (b : bool)
| VInt (n : Z)
| VFloat (f : spec_float)
| VStr (s : string)
| VList (items : list pyval)
| VDict (entries : list (string * pyval)).

(** Induction over the nesting of lists and dicts. *)
Fixpoint pyval_nested_ind (P : pyval -> Prop)
    (HNone : P VNone)
    (HBool : forall b, P (VBool b))
    (HInt : forall n, P (VInt n))
    (HFloat : forall f, P (VFloat f))
    (HStr : forall s, P (VStr s))
    (HList : forall l, Forall P l -> P (VList l))
    (HDict : forall d, Forall (fun kv => P (snd kv)) d -> P (VDict d))
    (v : pyval) {struct v} : P v :=
  match v with
  | VNone => HNone
  | VBool b => HBool b
  | VInt n => HInt n
  | VFloat f => HFloat f
  | VStr s => HStr s
  | VList l =>
      HList l
        ((fix all (l : list pyval) : Forall P l :=
            match l with
            | [] => Forall_nil P
            | x :: r =>
                Forall_cons x
                  (pyval_nested_ind P HNone HBool HInt HFloat HStr HList HDict x)
                  (all r)
            end) l)
  | VDict d =>
      HDict d
        ((fix all (d : list (string * pyval))
            : Forall (fun kv => P (snd kv)) d :=
            match d with
            | [] => Forall_nil _
            | kv :: r =>
                Forall_cons kv
                  (pyval_nested_ind P HNone HBool HInt HFloat HStr HList HDict
                     (snd kv))
                  (all r)
            end) d)
  end.

(** *** [isinstance] *)

(** [bool] is a subclass of [int]: [isinstance(True, int)] holds. *)
Definition isinstance_str (x : pyval) : bool :=
  match x with VStr _ => true | _ => false end.
Definition isinstance_bool (x : pyval) : bool :=
  match x with VBool _ => true | _ => false end.
Definition isinstance_int (x : pyval) : bool :=
  match x with VInt _ | VBool _ => true | _ => false end.
Definition isinstance_float (x : pyval) : bool :=
  match x with VFloat _ => true | _ => false end.
Definition isinstance_dict (x : pyval) : bool :=
  match x with VDict _ => true | _ => false end.
Definition isinstance_list (x : pyval) : bool :=
  match x with VList _ => true | _ => false end.
Definition is_None (x : pyval) : bool :=
  match x with VNone => true | _ => false end.

(** *** Dictionaries *)

Fixpoint dict_get {A : Type} (d : list (string * A)) (k : string) : option A :=
  match d with
  | [] => None
  | (k', x) :: rest => if String.eqb k' k then Some x else dict_get rest k
  end.

Definition dict_has {A : Type} (d : list (string * A)) (k : string) : bool :=
  match dict_get d k with Some _ => true | None => false end.

(** Lists and dicts have no hash: using one as a dictionary key raises. *)
Definition hashable (x : pyval) : bool :=
  match x with VList _ | VDict _ => false | _ => true end.

(** *** Equality, [==] *)

(** Numbers compare by mathematical value across [bool], [int] and [float];
    [True == 1] and [False == 0]. *)
Definition Z_of_bool (b : bool) : Z := if b then 1%Z else 0%Z.

Definition float_eq_Z (f : spec_float) (n : Z) : bool :=
  match f with
  | S754_zero _ => (n =? 0)%Z
  | S754_finite s m e =>
      let sm := if s then Z.neg m else Z.pos m in
      if (0 <=? e)%Z then (sm * 2 ^ e =? n)%Z
      else (sm =? n * 2 ^ (- e))%Z
  | _ => false
  end.

Fixpoint py_eq (a b : pyval) {struct a} : bool :=
  match a, b with
  | VNone, VNone => true
  | VBool x, VBool y => Bool.eqb x y
  | VBool x, VInt n => (Z_of_bool x =? n)%Z
  | VInt n, VBool y => (n =? Z_of_bool y)%Z
  | VInt n, VInt m => (n =? m)%Z
  | VBool x, VFloat f => float_eq_Z f (Z_of_bool x)
  | VFloat f, VBool y => float_eq_Z f (Z_of_bool y)
  | VInt n, VFloat f => float_eq_Z f n
  | VFloat f, VInt n => float_eq_Z f n
  | VFloat f, VFloat g => SFeqb f g
  | VStr s, VStr t => String.eqb s t
  | VList l, VList l' =>
      (fix eq_items (l l' : list pyval) : bool :=
         match l, l' with
         | [], [] => true
         | x :: r, y :: r' => py_eq x y && eq_items r r'
         | _, _ => false
         end) l l'
  | VDict d, VDict d' =>
      (List.length d =? List.length d')%nat &&
      (fix eq_entries (d : list (string * pyval)) : bool :=
         match d with
         | [] => true
         | (k, x) :: r =>
             match dict_get d' k with
             | Some y => py_eq x y && eq_entries r
             | None => false
             end
         end) d
  | _, _ => false
  end.

(** ** Outcomes of a call: a returned value or a raised exception *)

Inductive exn : Type := TypeError | KeyError | OverflowError.

Inductive result (A : Type) : Type :=
| Returned (a : A)
| Raised (e : exn).
Arguments Returned {A} a.
Arguments Raised {A} e.

(** *** Membership, [x in y] *)

Fixpoint str_contains (s sub : string) : bool :=
  String.prefix sub s ||
  match s with
  | EmptyString => false
  | String _ s' => str_contains s' sub
  end.

(** [key in d] for a dict hashes the key first. *)
Definition dict_contains {A : Type} (d : list (string * A)) (key : pyval)
  : result bool :=
  match key with
  | VStr k => Returned (dict_has d k)
  | VList _ | VDict _ => Raised TypeError
  | _ => Returned false
  end.

(** Document and schema are decoded separately, so they share no object
    and the identity shortcut of [in] adds nothing to [==]. *)
Definition py_in (x container : pyval) : result bool :=
  match container with
  | VList l => Returned (existsb (py_eq x) l)
  | VDict d => dict_contains d x
  | VStr s =>
      match x with
      | VStr sub => Returned (str_contains s sub)
      | _ => Raised TypeError
      end
  | _ => Raised TypeError
  end.

(** *** Iteration, [for x in y] *)

Definition py_iter (y : pyval) : result (list pyval) :=
  match y with
  | VList l => Returned l
  | VStr s =>
      Returned (map (fun c => VStr (String c EmptyString))
                    (list_ascii_of_string s))
  | VDict d => Returned (map (fun kv => VStr (fst kv)) d)
  | _ => Raised TypeError
  end.

(** *** Subscription, [y[k]], with a string subscript *)

Definition py_getitem (y : pyval) (k : string) : result pyval :=
  match y with
  | VDict d =>
      match dict_get d k with
      | Some x => Returned x
      | None => Raised KeyError
      end
  | _ => Raised TypeError
  end.

(** ** The runtime the validator is linked against *)

(** The [re] module and the printing of floats and of quoted strings
    belong to the interpreter, not to the repository.  The regular
    expression engine is kept abstract: [re_compile] parses a pattern,
    failing with [re.error] or with another exception, and [re_span r s k]
    tells whether the compiled pattern matches the first [k] characters of
    the subject [s], anchors being read against the whole of [s]. *)
Inductive compiled (regex : Type) : Type :=
| Compiled (r : regex)
| ReError
| CompileRaises (e : exn).
Arguments Compiled {regex} r.
Arguments ReError {regex}.
Arguments CompileRaises {regex} e.

Class Runtime : Type := {
  regex : Type;
  re_compile : string -> compiled regex;
  re_span : regex -> string -> nat -> bool;
  float_repr : spec_float -> string;
  str_repr : string -> string
}.

Inductive re_outcome : Type :=
| ReMatch (found : bool)
| ReErr
| ReRaise (e : exn).

Definition string_of_Z (n : Z) : string :=
  NilZero.string_of_int (Z.to_int n).
Definition string_of_nat (n : nat) : string :=
  NilZero.string_of_uint (Nat.to_uint n).

Fixpoint join (sep : string) (l : list string) : string :=
  match l with
  | [] => ""
  | [x] => x
  | x :: r => x ++ sep ++ join sep r
  end.

(** ** The validator's monad: [self.errors] plus exceptions *)

(** A method call takes the current contents of [self.errors] and gives an
    outcome with the contents afterwards.  What was appended before an
    exception is raised stays in the list. *)
Definition M (A : Type) : Type := list string -> result A * list string.

Definition ret {A : Type} (a : A) : M A := fun errors => (Returned a, errors).

Definition raise {A : Type} (e : exn) : M A := fun errors => (Raised e, errors).

Definition bind {A B : Type} (m : M A) (k : A -> M B) : M B :=
  fun errors =>
    match m errors with
    | (Returned a, errors') => k a errors'
    | (Raised e, errors') => (Raised e, errors')
    end.

Definition lift {A : Type} (r : result A) : M A :=
  match r with
  | Returned a => ret a
  | Raised e => raise e
  end.

(** [self.errors.append(msg)] *)
Definition errors_append (msg : string) : M unit :=
  fun errors => (Returned tt, (errors ++ [msg])%list).

(** [self.errors.clear()] *)
Definition errors_clear : M unit := fun _ => (Returned tt, []).

Declare Scope py_scope.
Delimit Scope py_scope with py.
Notation "x <- m ;; k" := (bind m (fun x => k))
  (at level 61, m at next level, right associativity) : py_scope.
Notation "m ;; k" := (bind m (fun _ => k))
  (at level 61, right associativity) : py_scope.
Open Scope py_scope.

(** ** class JsonSchemaValidator *)

Section Validator.
Context {R : Runtime}.

(** *** [str(x)] and [repr(x)] as the f-strings use them *)

Fixpoint py_repr (x : pyval) : string :=
  match x with
  | VNone => "None"
  | VBool true => "True"
  | VBool false => "False"
  | VInt n => string_of_Z n
  | VFloat f => float_repr f
  | VStr s => str_repr s
  | VList l => "[" ++ join ", " (map py_repr l) ++ "]"
  | VDict d =>
      "{" ++ join ", "
               (map (fun kv => str_repr (fst kv) ++ ": " ++ py_repr (snd kv)) d)
          ++ "}"
  end.

Definition py_str (x : pyval) : string :=
  match x with
  | VStr s => s
  | _ => py_repr x
  end.

(** *** [re.match(pattern, string)] *)

(** A match object is returned when the pattern matches some prefix of the
    string; the pattern must be a [str]. *)
Definition re_match (pattern : pyval) (s : string) : re_outcome :=
  match pattern with
  | VStr p =>
      match re_compile p with
      | Compiled r =>
          ReMatch (existsb (re_span r s) (seq 0 (S (String.length s))))
      | ReError => ReErr
      | CompileRaises e => ReRaise e
      end
  | _ => ReRaise TypeError
  end.

(** *** [_check_single_type] *)

Definition type_map : list (string * (pyval -> bool)) :=
  [ ("string", fun x => isinstance_str x);
    ("number", fun x => (isinstance_int x || isinstance_float x)
                        && negb (isinstance_bool x));
    ("integer", fun x => isinstance_int x && negb (isinstance_bool x));
    ("boolean", fun x => isinstance_bool x);
    ("object", fun x => isinstance_dict x);
    ("array", fun x => isinstance_list x);
    ("null", fun x => is_None x) ].

(** [type_map.get(expected_type, lambda x: False)(value)]: the key is
    hashed, then looked up among the seven names. *)
Definition _check_single_type (value expected_type : pyval) : result bool :=
  match expected_type with
  | VList _ | VDict _ => Raised TypeError
  | VStr name =>
      match dict_get type_map name with
      | Some test => Returned (test value)
      | None => Returned false
      end
  | _ => Returned false
  end.

(** *** [_validate_type] *)

(** The [for t in expected_type] loop with its early [return True]. *)
Fixpoint any_single_type (value : pyval) (types : list pyval) : result bool :=
  match types with
  | [] => Returned false
  | t :: rest =>
      match _check_single_type value t with
      | Returned true => Returned true
      | Returned false => any_single_type value rest
      | Raised e => Raised e
      end
  end.

Definition _validate_type (value expected_type : pyval) (path : string)
  : M bool :=
  match expected_type with
  | VList types =>
      found <- lift (any_single_type value types) ;;
      if found then ret true
      else
        errors_append (path ++ ": Value " ++ str_repr (py_str value)
                       ++ " is not one of types " ++ py_str expected_type) ;;
        ret false
  | _ =>
      ok <- lift (_check_single_type value expected_type) ;;
      if negb ok then
        errors_append (path ++ ": Value " ++ str_repr (py_str value)
                       ++ " is not of type " ++ py_str expected_type) ;;
        ret false
      else ret true
  end.

(** *** [_validate_enum] *)

Definition _validate_enum (value enum_values : pyval) (path : string)
  : M bool :=
  found <- lift (py_in value enum_values) ;;
  if negb found then
    errors_append (path ++ ": Value " ++ str_repr (py_str value)
                   ++ " is not in enum " ++ py_str enum_values) ;;
    ret false
  else ret true.

(** *** [_validate_pattern] *)

(** [except re.error] catches the engine's own error and nothing else. *)
Definition _validate_pattern (value : string) (pattern : pyval) (path : string)
  : M bool :=
  match re_match pattern value with
  | ReMatch true => ret true
  | ReMatch false =>
      errors_append (path ++ ": String '" ++ value
                     ++ "' doesn't match pattern '" ++ py_str pattern ++ "'") ;;
      ret false
  | ReErr =>
      errors_append (path ++ ": Invalid regex pattern '"
                     ++ py_str pattern ++ "'") ;;
      ret false
  | ReRaise e => raise e
  end.

(** *** [_validate_required] *)

Fixpoint required_loop (obj : list (string * pyval)) (path : string)
    (props : list pyval) (valid : bool) : M bool :=
  match props with
  | [] => ret valid
  | prop :: rest =>
      present <- lift (dict_contains obj prop) ;;
      if negb present then
        errors_append (path ++ ": Missing required property '"
                       ++ py_str prop ++ "'") ;;
        required_loop obj path rest false
      else required_loop obj path rest valid
  end.

Definition _validate_required (obj : list (string * pyval))
    (required_props : pyval) (path : string) : M bool :=
  props <- lift (py_iter required_props) ;;
  required_loop obj path props true.

(** *** [_validate_properties] and [_validate_array_items] *)

(** Both loops call back into [_validate_value]; the callee is the
    parameter [validate_value] until the knot is tied below. *)
Section Loops.
Variable validate_value : pyval -> pyval -> string -> M bool.

Fixpoint properties_loop (items : list (string * pyval))
    (properties_schema : pyval) (path : string) (valid : bool) : M bool :=
  match items with
  | [] => ret valid
  | (prop, value) :: rest =>
      let prop_path :=
        if negb (String.eqb path "") then path ++ "." ++ prop else prop in
      declared <- lift (py_in (VStr prop) properties_schema) ;;
      if declared then
        sub <- lift (py_getitem properties_schema prop) ;;
        ok <- validate_value value sub prop_path ;;
        if negb ok then properties_loop rest properties_schema path false
        else properties_loop rest properties_schema path valid
      else properties_loop rest properties_schema path valid
  end.

Definition _validate_properties (obj : list (string * pyval))
    (properties_schema : pyval) (path : string) : M bool :=
  properties_loop obj properties_schema path true.

Fixpoint array_items_loop (i : nat) (items : list pyval)
    (items_schema : pyval) (path : string) (valid : bool) : M bool :=
  match items with
  | [] => ret valid
  | item :: rest =>
      let item_path := path ++ "[" ++ string_of_nat i ++ "]" in
      ok <- validate_value item items_schema item_path ;;
      if negb ok then array_items_loop (S i) rest items_schema path false
      else array_items_loop (S i) rest items_schema path valid
  end.

Definition _validate_array_items (array : list pyval) (items_schema : pyval)
    (path : string) : M bool :=
  array_items_loop 0 array items_schema path true.

End Loops.

(** *** [_validate_value] *)

(** One keyword of [_validate_value]:
    [if kw in schema and applicable: if not check(schema[kw]): return False],
    followed by the rest of the method.  The checks that take a [str], a
    [dict] or a [list] open the value under the [isinstance] test that
    guards them, so their other branch is never run. *)
Definition keyword (schema : list (string * pyval)) (kw : string)
    (applicable : bool) (check : pyval -> M bool) (rest : M bool) : M bool :=
  match dict_get schema kw with
  | Some arg =>
      if applicable then
        ok <- check arg ;;
        if negb ok then ret false else rest
      else rest
  | None => rest
  end.

Fixpoint _validate_value (value schema : pyval) (path : string) {struct value}
  : M bool :=
  match schema with
  | VDict sch =>
      keyword sch "type" true (fun t => _validate_type value t path) (
      keyword sch "enum" true (fun e => _validate_enum value e path) (
      keyword sch "pattern" (isinstance_str value)
        (fun p =>
           match value with
           | VStr s => _validate_pattern s p path
           | _ => ret true
           end) (
      keyword sch "required" (isinstance_dict value)
        (fun r =>
           match value with
           | VDict obj => _validate_required obj r path
           | _ => ret true
           end) (
      keyword sch "properties" (isinstance_dict value)
        (fun ps =>
           match value with
           | VDict obj => _validate_properties _validate_value obj ps path
           | _ => ret true
           end) (
      keyword sch "items" (isinstance_list value)
        (fun it =>
           match value with
           | VList array => _validate_array_items _validate_value array it path
           | _ => ret true
           end) (
      ret true))))))
  | _ =>
      errors_append (path ++ ": Schema must be an object") ;;
      ret false
  end.

(** *** [validate] and [get_errors] *)

Definition validate (document schema : pyval) : M bool :=
  errors_clear ;;
  _validate_value document schema "".

Definition get_errors : M (list string) :=
  fun errors => (Returned errors, errors).

End Validator.

(** ** A runtime instance to run the validator on concrete inputs *)

(** A small regular-expression engine that agrees with [re] on the
    patterns built from literal characters, [.], [^], [$] and a postfix
    [*] on a character or on [.].  A [*] with nothing to repeat is
    malformed, as in [re].  The other metacharacters are outside the
    fragment: the instance reports them through [ReError] too, which [re]
    does only for the ill-formed ones, and no statement below runs the
    instance on such a pattern. *)
Module ReFragment.

Inductive atom : Type := Lit (c : ascii) | Dot.

Inductive item : Type :=
| One (a : atom)
| Many (a : atom)
| Bol
| Eol.

Inductive parsed : Type :=
| Parsed (items : list item)
| Malformed
| Unsupported.

Definition and_then (i : item) (p : parsed) : parsed :=
  match p with
  | Parsed items => Parsed (i :: items)
  | other => other
  end.

Definition outside_fragment (c : ascii) : bool :=
  existsb (Ascii.eqb c)
    ["\"; "["; "]"; "("; ")"; "{"; "}"; "+"; "?"; "|"]%char.

Fixpoint parse (p : string) : parsed :=
  match p with
  | EmptyString => Parsed []
  | String c rest =>
      if Ascii.eqb c "^" then and_then Bol (parse rest)
      else if Ascii.eqb c "$" then and_then Eol (parse rest)
      else if Ascii.eqb c "*" then Malformed
      else if outside_fragment c then Unsupported
      else
        let a := if Ascii.eqb c "." then Dot else Lit c in
        match rest with
        | String "*" rest' => and_then (Many a) (parse rest')
        | _ => and_then (One a) (parse rest)
        end
  end.

Definition newline : ascii := ascii_of_nat 10.

Definition atom_accepts (a : atom) (c : ascii) : bool :=
  match a with
  | Lit x => Ascii.eqb x c
  | Dot => negb (Ascii.eqb c newline)
  end.

(** [$] holds at the end of the subject and before a final newline. *)
Definition at_end (rest : string) : bool :=
  match rest with
  | EmptyString => true
  | String c EmptyString => Ascii.eqb c newline
  | _ => false
  end.

(** The positions at which a match of [items] that starts at [pos], with
    [rest] still to read, can end. *)
Fixpoint ends (items : list item) (pos : nat) (rest : string) {struct items}
  : list nat :=
  match items with
  | [] => [pos]
  | One a :: tl =>
      match rest with
      | String c rest' =>
          if atom_accepts a c then ends tl (S pos) rest' else []
      | EmptyString => []
      end
  | Many a :: tl =>
      (fix many (pos : nat) (rest : string) {struct rest} : list nat :=
         (ends tl pos rest ++
          match rest with
          | String c rest' =>
              if atom_accepts a c then many (S pos) rest' else []
          | EmptyString => []
          end)%list) pos rest
  | Bol :: tl => if (pos =? 0)%nat then ends tl pos rest else []
  | Eol :: tl => if at_end rest then ends tl pos rest else []
  end.

Definition compile (p : string) : compiled (list item) :=
  match parse p with
  | Parsed items => Compiled items
  | Malformed => ReError
  | Unsupported => ReError
  end.

Definition span (items : list item) (s : string) (k : nat) : bool :=
  existsb (Nat.eqb k) (ends items 0 s).

(** Floats and quoted strings are printed as Python prints them for the
    zeros, the infinities, nan and the whole floats below [1e16], and for
    the strings that hold no quote, backslash or control character. *)
Definition float_repr (f : spec_float) : string :=
  match f with
  | S754_zero s => if s then "-0.0" else "0.0"
  | S754_infinity s => if s then "-inf" else "inf"
  | S754_nan => "nan"
  | S754_finite s m e =>
      let sign := if s then "-" else "" in
      if (0 <=? e)%Z then sign ++ string_of_Z (Z.pos m * 2 ^ e) ++ ".0"
      else if (Z.pos m mod 2 ^ (- e) =? 0)%Z
           then sign ++ string_of_Z (Z.pos m / 2 ^ (- e)) ++ ".0"
           else sign ++ string_of_Z (Z.pos m) ++ "*2**" ++ string_of_Z e
  end.

Definition str_repr (s : string) : string := "'" ++ s ++ "'".

End ReFragment.

#[export] Instance fragment_runtime : Runtime := {|
  regex := list ReFragment.item;
  re_compile := ReFragment.compile;
  re_span := ReFragment.span;
  float_repr := ReFragment.float_repr;
  str_repr := ReFragment.str_repr
|}.

(** The float [1.0], as [json.loads("1.0")] gives it. *)
Definition float_one : spec_float :=
  S754_finite false 4503599627370496 (-52).

(** Running a call on a validator whose error list is [errors]. *)
Definition outcome {A : Type} (m : M A) (errors : list string) : result A :=
  fst (m errors).
Definition errors_after {A : Type} (m : M A) (errors : list string)
  : list string :=
  snd (m errors).

(** * Vocabulary of the statements *)

Section Vocabulary.
Context {R : Runtime}.

(** ** Effects on the error list *)

(** [appends m o app]: whatever the list holds, the call [m] ends with
    outcome [o] and has appended exactly [app]. *)
Definition appends {A : Type} (m : M A) (o : result A) (app : list string)
  : Prop :=
  forall errors, m errors = (o, (errors ++ app)%list).

(** [tracked valid m]: [m] is append-only and, when it returns, it
    returns [True] exactly when [valid] held on entry and nothing was
    appended.  The loops carry their [valid] flag through this. *)
Definition tracked (valid : bool) (m : M bool) : Prop :=
  exists o app,
    appends m o app /\
    forall b, o = Returned b -> (b = true <-> valid = true /\ app = []).

(** ** Children of an array and of an object *)

(** The paths of the children, as the two loops build them. *)
Definition item_path (path : string) (i : nat) : string :=
  path ++ "[" ++ string_of_nat i ++ "]".

Definition prop_path (path prop : string) : string :=
  if negb (String.eqb path "") then path ++ "." ++ prop else prop.

(** [enumerate(l)], counting from [i]. *)
Definition indexed_from {A : Type} (i : nat) (l : list A) : list (nat * A) :=
  combine (seq i (List.length l)) l.

(** The call, run on its own, returns [True]. *)
Definition returns_true (m : M bool) : bool :=
  match outcome m [] with
  | Returned true => true
  | _ => false
  end.

(** The call made for element [i] of an array, and the call made for an
    entry of an object, if [properties] declares its key. *)
Definition item_call (items_schema : pyval) (path : string)
    (entry : nat * pyval) : M bool :=
  _validate_value (snd entry) items_schema (item_path path (fst entry)).

Definition property_call (ps : list (string * pyval)) (path : string)
    (entry : string * pyval) : M bool :=
  match dict_get ps (fst entry) with
  | Some sub => _validate_value (snd entry) sub (prop_path path (fst entry))
  | None => ret true
  end.

(** ** Type declarations *)

(** A [type] declaration that names only [number] and [integer]. *)
Definition numeric_name (t : pyval) : Prop :=
  t = VStr "number" \/ t = VStr "integer".

Definition numeric_declaration (t : pyval) : Prop :=
  numeric_name t \/ exists l, t = VList l /\ Forall numeric_name l.

(** The spec's reading of [integer]: a number, not a boolean, with no
    fractional part. *)
Definition float_is_whole (f : spec_float) : bool :=
  match f with
  | S754_zero _ => true
  | S754_finite _ m e =>
      (0 <=? e)%Z || (Z.pos m mod 2 ^ (- e) =? 0)%Z
  | _ => false
  end.

Definition whole_numeric_non_boolean (x : pyval) : bool :=
  match x with
  | VInt _ => true
  | VFloat f => float_is_whole f
  | _ => false
  end.

(** ** Schemas *)

(** The six keywords [_validate_value] looks for. *)
Definition recognized_keywords : list string :=
  ["type"; "enum"; "pattern"; "required"; "properties"; "items"].

(** A schema whose keywords have the kinds the method signatures declare:
    [type] a string or a list of strings, [enum] a list, [pattern] a
    string on which the engine raises nothing but [re.error], [required]
    a list of strings, [properties] an object of such schemas and [items]
    such a schema.  What is not an object is reported by
    [_validate_value] itself and needs no shape. *)
Definition is_str_list (x : pyval) : bool :=
  match x with
  | VList l => forallb isinstance_str l
  | _ => false
  end.

Definition pattern_shape (p : pyval) : bool :=
  match p with
  | VStr s =>
      match re_compile s with
      | CompileRaises _ => false
      | _ => true
      end
  | _ => false
  end.

Definition keyword_shape (shape : pyval -> bool) (kw : string) (arg : pyval)
  : bool :=
  if String.eqb kw "type" then isinstance_str arg || is_str_list arg
  else if String.eqb kw "enum" then isinstance_list arg
  else if String.eqb kw "pattern" then pattern_shape arg
  else if String.eqb kw "required" then is_str_list arg
  else if String.eqb kw "properties" then
    match arg with
    | VDict ps => forallb (fun kv => shape (snd kv)) ps
    | _ => false
    end
  else if String.eqb kw "items" then shape arg
  else true.

Fixpoint well_shaped (schema : pyval) : bool :=
  match schema with
  | VDict sch =>
      forallb (fun kv => keyword_shape well_shaped (fst kv) (snd kv)) sch
  | _ => true
  end.

(** [returns m]: the call returns a boolean, whatever the list holds. *)
Definition returns (m : M bool) : Prop :=
  exists b app, appends m (Returned b) app.

(** ** Messages *)

(** The message of [_validate_required] for one name, and the test it
    makes on the object. *)
Definition missing_message (path name : string) : string :=
  path ++ ": Missing required property '" ++ name ++ "'".

Definition absent (obj : list (string * pyval)) (name : string) : bool :=
  negb (dict_has obj name).

(** [at_path path m]: [m] is append-only and each message it appends
    starts with [path] followed by a colon and a space. *)
Definition at_path (path : string) (m : M bool) : Prop :=
  exists o app,
    appends m o app /\
    Forall (fun msg => String.prefix (path ++ ": ") msg = true) app.

End Vocabulary.

(** * The [/validate] route *)

(** The route decodes the two texts of the request body, runs a fresh
    validator and answers with [jsonify({'valid': ..., 'errors': ...})].
    Flask and [json] are outside the repository: the outcome of
    [request.get_json()] is the argument of the route, [json.loads] on a
    [str] is a parameter, and so is the text [str(e)] of an exception that
    [validate] raised on a given document and schema. *)
Record response : Type := jsonify {
  body_valid : bool;
  body_errors : list string
}.

Inductive loads_result : Type :=
| Loaded (obj : pyval)
| JSONDecodeError (text : string)
| LoadsRaises (text : string).

Inductive get_json_result : Type :=
| GotJson (data : pyval)
| GetJsonRaises (text : string).

Class WebRuntime : Type := {
  json_loads : string -> loads_result;
  exception_text : pyval -> pyval -> exn -> string
}.

(** [bool(x)], as [not data] uses it. *)
Definition truthy (x : pyval) : bool :=
  match x with
  | VNone => false
  | VBool b => b
  | VInt n => negb (n =? 0)%Z
  | VFloat f => match f with S754_zero _ => false | _ => true end
  | VStr s => negb (String.eqb s "")
  | VList l => match l with [] => false | _ => true end
  | VDict d => match d with [] => false | _ => true end
  end.

(** [type(x).__name__] *)
Definition class_name (x : pyval) : string :=
  match x with
  | VNone => "NoneType"
  | VBool _ => "bool"
  | VInt _ => "int"
  | VFloat _ => "float"
  | VStr _ => "str"
  | VList _ => "list"
  | VDict _ => "dict"
  end.

Section Route.
Context {R : Runtime} {W : WebRuntime}.

(** [json.loads(x)]: only a [str] is decoded. *)
Definition py_json_loads (x : pyval) : loads_result :=
  match x with
  | VStr s => json_loads s
  | _ =>
      LoadsRaises ("the JSON object must be str, bytes or bytearray, not "
                   ++ class_name x)
  end.

(** The answer of the outer [except Exception as e]. *)
Definition unexpected (text : string) : response :=
  jsonify false ["Unexpected error: " ++ text].

(** [d.get(k, default)] *)
Definition dict_get_default (d : list (string * pyval)) (k : string)
    (default : pyval) : pyval :=
  match dict_get d k with
  | Some x => x
  | None => default
  end.

(** The function [validate] behind [@app.route('/validate')]; the method
    of the class keeps the name. *)
Definition route_validate (request_json : get_json_result) : response :=
  match request_json with
  | GetJsonRaises text => unexpected text
  | GotJson data =>
      if negb (truthy data) then jsonify false ["No JSON data provided"]
      else
        match data with
        | VDict d =>
            let json_data := dict_get_default d "json" (VStr "{}") in
            let schema_data := dict_get_default d "schema" (VStr "{}") in
            match py_json_loads json_data with
            | Loaded json_obj =>
                match py_json_loads schema_data with
                | Loaded schema_obj =>
                    match validate json_obj schema_obj [] with
                    | (Returned is_valid, errors) => jsonify is_valid errors
                    | (Raised e, _) =>
                        unexpected (exception_text json_obj schema_obj e)
                    end
                | JSONDecodeError text =>
                    jsonify false ["Invalid JSON Schema: " ++ text]
                | LoadsRaises text => unexpected text
                end
            | JSONDecodeError text => jsonify false ["Invalid JSON: " ++ text]
            | LoadsRaises text => unexpected text
            end
        | _ =>
            unexpected ("'" ++ class_name data
                        ++ "' object has no attribute 'get'")
        end
  end.

End Route.

(** An instance to run the route on concrete requests.  It decodes the
    five texts [{}], [[]], [null], [true] and [false] as [json.loads]
    does and reports every other text as undecodable, which [json.loads]
    does only for the malformed ones; for an exception it gives the name
    of its class in place of its text.  No statement below runs it on
    another text or depends on the text of an exception. *)
Definition fragment_json_loads (s : string) : loads_result :=
  if String.eqb s "{}" then Loaded (VDict [])
  else if String.eqb s "[]" then Loaded (VList [])
  else if String.eqb s "null" then Loaded VNone
  else if String.eqb s "true" then Loaded (VBool true)
  else if String.eqb s "false" then Loaded (VBool false)
  else JSONDecodeError "Expecting value: line 1 column 1 (char 0)".

Definition fragment_exception_text (document schema : pyval) (e : exn)
  : string :=
  match e with
  | TypeError => "TypeError"
  | KeyError => "KeyError"
  | OverflowError => "OverflowError"
  end.

#[export] Instance fragment_web : WebRuntime := {|
  json_loads := fragment_json_loads;
  exception_text := fragment_exception_text
|}.

(** * Vocabulary of the further statements *)

Section FurtherVocabulary.
Context {R : Runtime}.

(** ** Paths *)

(** [under_path path m]: [m] is append-only and each message it appends
    starts with [path]. *)
Definition under_path (path : string) (m : M bool) : Prop :=
  exists o app,
    appends m o app /\
    Forall (fun msg => String.prefix path msg = true) app.

(** ** Type names *)

Definition type_names : list string :=
  ["string"; "number"; "integer"; "boolean"; "object"; "array"; "null"].

(** The six names that stand for a kind of value; [integer] refines
    [number]. *)
Definition kind_names : list string :=
  ["string"; "number"; "boolean"; "object"; "array"; "null"].

Definition type_accepts (x : pyval) (name : string) : bool :=
  match dict_get type_map name with
  | Some test => test x
  | None => false
  end.

(** ** Values that equal themselves *)



(** ** The keywords a value is examined for *)

Definition applicable_keywords (x : pyval) : list string :=
  "type" :: "enum" ::
  match x with
  | VStr _ => ["pattern"]
  | VDict _ => ["required"; "properties"]
  | VList _ => ["items"]
  | _ => []
  end.

(** The entries of an object whose key [properties] declares. *)
Definition declared (ps : list (string * pyval)) (entry : string * pyval)
  : bool :=
  dict_has ps (fst entry).

(** ** The verdict as a function *)








End FurtherVocabulary.

(** * Properties *)

Section Properties.
Context {R : Runtime}.

(** ** The error list is append-only *)

Lemma appends_ret {A : Type} (a : A) : appends (ret a) (Returned a) [].
Proof. intros errors. unfold ret. now rewrite app_nil_r. Qed.

Lemma appends_raise {A : Type} (e : exn) : appends (@raise A e) (Raised e) [].
Proof. intros errors. unfold raise. now rewrite app_nil_r. Qed.

Lemma appends_lift {A : Type} (r : result A) : appends (lift r) r [].
Proof. destruct r; [apply appends_ret | apply appends_raise]. Qed.

Lemma appends_errors_append (msg : string) :
  appends (errors_append msg) (Returned tt) [msg].
Proof. intros errors. reflexivity. Qed.

Lemma appends_bind {A B : Type} (m : M A) (k : A -> M B) a app1 o app2 :
  appends m (Returned a) app1 ->
  appends (k a) o app2 ->
  appends (bind m k) o (app1 ++ app2).
Proof.
  intros Hm Hk errors. unfold bind. rewrite Hm, Hk. now rewrite app_assoc.
Qed.

Lemma appends_bind_raised {A B : Type} (m : M A) (k : A -> M B) e app :
  appends m (Raised e) app ->
  appends (bind m k) (Raised e) app.
Proof. intros Hm errors. unfold bind. now rewrite Hm. Qed.

Lemma appends_run {A : Type} (m : M A) o app :
  appends m o app -> outcome m [] = o /\ errors_after m [] = app.
Proof. intros H. unfold outcome, errors_after. now rewrite (H []). Qed.

Lemma appends_unique {A : Type} (m : M A) o app o' app' :
  appends m o app -> appends m o' app' -> o = o' /\ app = app'.
Proof.
  intros H H'. specialize (H []). specialize (H' []).
  rewrite H in H'. now inversion H'.
Qed.

(** [m ;; ret b] after one appended message. *)
Lemma appends_report (msg : string) (b : bool) :
  appends (errors_append msg ;; ret b) (Returned b) [msg].
Proof.
  change [msg] with ([msg] ++ [])%list.
  eapply appends_bind; [apply appends_errors_append | apply appends_ret].
Qed.

(** ** Verdict and error list agree *)

Lemma tracked_ret (valid : bool) : tracked valid (ret valid).
Proof.
  exists (Returned valid), []. split; [apply appends_ret |].
  intros b [= <-]. tauto.
Qed.

Lemma tracked_raise (valid : bool) (e : exn) : tracked valid (raise e).
Proof.
  exists (Raised e), []. split; [apply appends_raise | discriminate].
Qed.

Lemma tracked_report (valid : bool) (msg : string) :
  tracked valid (errors_append msg ;; ret false).
Proof.
  exists (Returned false), [msg]. split; [apply appends_report |].
  intros b [= <-]. split; [discriminate | intros [_ [=]]].
Qed.

Lemma tracked_lift_bind {A : Type} (valid : bool) (r : result A)
    (k : A -> M bool) :
  (forall a, r = Returned a -> tracked valid (k a)) ->
  tracked valid (bind (lift r) k).
Proof.
  intros Hk. destruct r as [a | e].
  - destruct (Hk a eq_refl) as (o & app & Happ & Hb).
    exists o, app. split; [| exact Hb].
    change app with ([] ++ app)%list.
    eapply appends_bind; [apply appends_ret | exact Happ].
  - exists (Raised e), []. split; [| discriminate].
    apply appends_bind_raised, appends_raise.
Qed.

(** A sub-call followed by a continuation that keeps the flag on success
    and drops it on failure. *)
Lemma tracked_bind_flag (valid : bool) (m : M bool) (k : bool -> M bool) :
  tracked true m ->
  tracked valid (k true) ->
  tracked false (k false) ->
  tracked valid (bind m k).
Proof.
  intros (o & app & Happ & Hb) Ht Hf.
  destruct o as [[|] | e].
  - destruct (proj1 (Hb true eq_refl) eq_refl) as [_ ->].
    destruct Ht as (o' & app' & Happ' & Hb').
    exists o', app'. split; [| exact Hb'].
    change app' with ([] ++ app')%list. eapply appends_bind; eassumption.
  - destruct Hf as (o' & app' & Happ' & Hb').
    exists o', (app ++ app')%list. split.
    + eapply appends_bind; eassumption.
    + intros b Hret. specialize (Hb' b Hret).
      split; [intros Hbt; apply Hb' in Hbt; destruct Hbt; discriminate |].
      intros [-> Hnil]. apply app_eq_nil in Hnil. destruct Hnil as [-> _].
      assert (false = true) by (apply Hb; [reflexivity | auto]).
      discriminate.
  - exists (Raised e), app. split; [| discriminate].
    now apply appends_bind_raised.
Qed.

Lemma tracked_validate_type value expected_type path :
  tracked true (_validate_type value expected_type path).
Proof.
  unfold _validate_type.
  destruct expected_type;
    apply tracked_lift_bind; intros [|] _; cbn [negb];
    first [apply tracked_ret | apply tracked_report].
Qed.

Lemma tracked_validate_enum value enum_values path :
  tracked true (_validate_enum value enum_values path).
Proof.
  unfold _validate_enum.
  apply tracked_lift_bind; intros [|] _; cbn [negb];
    first [apply tracked_ret | apply tracked_report].
Qed.

Lemma tracked_validate_pattern value pattern path :
  tracked true (_validate_pattern value pattern path).
Proof.
  unfold _validate_pattern.
  destruct (re_match pattern value) as [[|] | | e];
    first [apply tracked_ret | apply tracked_report | apply tracked_raise].
Qed.

Lemma tracked_required_loop obj path props valid :
  tracked valid (required_loop obj path props valid).
Proof.
  revert valid. induction props as [| prop rest IH]; intros valid; cbn.
  - apply tracked_ret.
  - apply tracked_lift_bind. intros [|] _; cbn [negb]; [apply IH |].
    destruct (IH false) as (o & app & Happ & Hb).
    eexists o, (_ :: app). split.
    + change (?m :: app) with ([m] ++ app)%list.
      eapply appends_bind; [apply appends_errors_append | exact Happ].
    + intros b Hret. specialize (Hb b Hret).
      split; [intros Hbt; apply Hb in Hbt; destruct Hbt; discriminate |].
      intros [_ [=]].
Qed.

Lemma tracked_validate_required obj required_props path :
  tracked true (_validate_required obj required_props path).
Proof.
  unfold _validate_required. apply tracked_lift_bind.
  intros props _. apply tracked_required_loop.
Qed.

Lemma tracked_keyword sch kw applicable check rest :
  (forall arg, tracked true (check arg)) ->
  tracked true rest ->
  tracked true (keyword sch kw applicable check rest).
Proof.
  intros Hcheck Hrest. unfold keyword.
  destruct (dict_get sch kw) as [arg |]; [| exact Hrest].
  destruct applicable; [| exact Hrest].
  apply tracked_bind_flag; cbn [negb]; auto using tracked_ret.
Qed.

Section LoopsTracked.
Variable validate_value : pyval -> pyval -> string -> M bool.

Lemma tracked_properties_loop items properties_schema path valid :
  Forall (fun kv => forall schema p,
            tracked true (validate_value (snd kv) schema p)) items ->
  tracked valid
    (properties_loop validate_value items properties_schema path valid).
Proof.
  intros Hall. revert valid.
  induction Hall as [| [prop value] rest Hkv _ IH]; intros valid; cbn.
  - apply tracked_ret.
  - apply tracked_lift_bind. intros [|] _; [| apply IH].
    apply tracked_lift_bind. intros sub _.
    apply tracked_bind_flag; cbn [negb]; auto.
Qed.

Lemma tracked_array_items_loop i items items_schema path valid :
  Forall (fun item => forall schema p,
            tracked true (validate_value item schema p)) items ->
  tracked valid
    (array_items_loop validate_value i items items_schema path valid).
Proof.
  intros Hall. revert i valid.
  induction Hall as [| item rest Hitem _ IH]; intros i valid; cbn.
  - apply tracked_ret.
  - apply tracked_bind_flag; cbn [negb]; auto.
Qed.

End LoopsTracked.

Lemma validate_value_unfold value schema path :
  _validate_value value schema path =
  match schema with
  | VDict sch =>
      keyword sch "type" true (fun t => _validate_type value t path) (
      keyword sch "enum" true (fun e => _validate_enum value e path) (
      keyword sch "pattern" (isinstance_str value)
        (fun p =>
           match value with
           | VStr s => _validate_pattern s p path
           | _ => ret true
           end) (
      keyword sch "required" (isinstance_dict value)
        (fun r =>
           match value with
           | VDict obj => _validate_required obj r path
           | _ => ret true
           end) (
      keyword sch "properties" (isinstance_dict value)
        (fun ps =>
           match value with
           | VDict obj => _validate_properties _validate_value obj ps path
           | _ => ret true
           end) (
      keyword sch "items" (isinstance_list value)
        (fun it =>
           match value with
           | VList array => _validate_array_items _validate_value array it path
           | _ => ret true
           end) (
      ret true))))))
  | _ =>
      errors_append (path ++ ": Schema must be an object") ;;
      ret false
  end.
Proof. destruct value; reflexivity. Qed.

Lemma tracked_validate_value value :
  forall schema path, tracked true (_validate_value value schema path).
Proof.
  induction value using pyval_nested_ind; intros schema path;
    rewrite validate_value_unfold;
    (destruct schema as [| | | | | | sch]; try apply tracked_report);
    repeat (apply tracked_keyword;
            [intros arg;
             first [apply tracked_validate_type
                   | apply tracked_validate_enum
                   | apply tracked_validate_pattern
                   | apply tracked_validate_required
                   | apply tracked_ret
                   | idtac] |]);
    try apply tracked_ret.
  - apply tracked_array_items_loop. assumption.
  - apply tracked_properties_loop. assumption.
Qed.

Lemma validate_value_appends value schema path :
  appends (_validate_value value schema path)
    (outcome (_validate_value value schema path) [])
    (errors_after (_validate_value value schema path) []).
Proof.
  destruct (tracked_validate_value value schema path) as (o & app & Happ & _).
  destruct (appends_run _ _ _ Happ) as [-> ->]. exact Happ.
Qed.

(** C1. [validate] clears the error list first, so that its result is the
    one of the matching started on an empty list whatever the list held
    before; and when it returns, it returns [True] exactly when the list
    that [get_errors] gives afterwards is empty, that is when the call
    appended no error. *)
Theorem validate_true_iff_no_errors document schema prior :
  validate document schema prior = _validate_value document schema "" [] /\
  forall b errors,
    outcome (validate document schema) prior = Returned b ->
    outcome get_errors (errors_after (validate document schema) prior)
      = Returned errors ->
    (b = true <-> errors = []).
Proof.
  split; [reflexivity |].
  intros b errors Hb [= <-].
  destruct (tracked_validate_value document schema "") as (o & app & Happ & Hv).
  unfold outcome, errors_after, validate, bind, errors_clear in *.
  cbn in *. rewrite (Happ []) in *. cbn in *. subst o.
  specialize (Hv b eq_refl). tauto.
Qed.

(** ** Short-circuit per node, full traversal of the children *)

Lemma array_items_loop_all items : forall i items_schema path valid errors,
  Forall (fun entry => exists b,
            outcome (item_call items_schema path entry) [] = Returned b)
         (indexed_from i items) ->
  array_items_loop _validate_value i items items_schema path valid errors =
  (Returned (valid && forallb (fun e => returns_true (item_call items_schema path e))
                              (indexed_from i items)),
   (errors ++ List.concat (map (fun e => errors_after (item_call items_schema path e) [])
                          (indexed_from i items)))%list).
Proof.
  induction items as [| item rest IH]; intros i items_schema path valid errors Hall.
  - cbn. now rewrite andb_true_r, app_nil_r.
  - unfold indexed_from in *. cbn [List.length seq combine] in *.
    inversion Hall as [| e l [b Hb] Hrest]; subst.
    cbn [array_items_loop map List.concat forallb]. unfold bind.
    rewrite (validate_value_appends item items_schema _ errors).
    assert (Hok : returns_true (item_call items_schema path (i, item)) = b).
    { unfold returns_true. rewrite Hb. now destruct b. }
    rewrite Hok. clear Hok.
    unfold item_call at 1. unfold item_call in Hb.
    cbn [fst snd] in *. unfold item_path in *. rewrite Hb.
    destruct b; cbn [negb andb]; rewrite (IH (S i) _ _ _ _ Hrest);
      rewrite <- app_assoc, ?andb_false_r; reflexivity.
Qed.

Lemma properties_loop_all ps obj : forall path valid errors,
  Forall (fun entry => exists b,
            outcome (property_call ps path entry) [] = Returned b) obj ->
  properties_loop _validate_value obj (VDict ps) path valid errors =
  (Returned (valid && forallb (fun e => returns_true (property_call ps path e)) obj),
   (errors ++ List.concat (map (fun e => errors_after (property_call ps path e) [])
                          obj))%list).
Proof.
  induction obj as [| [prop value] rest IH]; intros path valid errors Hall.
  - cbn. now rewrite andb_true_r, app_nil_r.
  - inversion Hall as [| e l [b Hb] Hrest]; subst.
    cbn [properties_loop map List.concat forallb]. unfold bind at 1.
    cbn [py_in dict_contains lift ret].
    assert (Hok : returns_true (property_call ps path (prop, value)) = b).
    { unfold returns_true. rewrite Hb. now destruct b. }
    rewrite Hok. clear Hok.
    unfold dict_has, py_getitem.
    destruct (dict_get ps prop) as [sub |] eqn:Hget.
    + assert (Hcall : property_call ps path (prop, value)
                      = _validate_value value sub (prop_path path prop)).
      { unfold property_call. cbn [fst snd]. now rewrite Hget. }
      rewrite Hcall in *. clear Hcall.
      cbn [lift]. unfold bind, ret.
      rewrite (validate_value_appends value sub _ errors).
      unfold prop_path in *. rewrite Hb.
      destruct b; cbn [negb andb]; rewrite (IH _ _ _ Hrest);
        rewrite <- app_assoc, ?andb_false_r; reflexivity.
    + assert (Hcall : property_call ps path (prop, value) = ret true).
      { unfold property_call. cbn [fst snd]. now rewrite Hget. }
      rewrite Hcall in *. clear Hcall.
      cbn [lift]. unfold bind, ret. rewrite (IH _ _ _ Hrest).
      assert (Hb' : b = true) by (cbn in Hb; congruence). subst b.
      reflexivity.
Qed.

(** C2. At a node whose schema has [type], a failed type check ends the
    node: the node returns [False] and its whole effect on the error list
    is the single message of the type check, so [enum], [pattern],
    [required], [properties] and [items] append nothing there.  The
    [items] and [properties] loops, once reached, call every child: when
    the children return, the loop returns the conjunction of their
    verdicts and has appended the errors of all of them, in order, also
    after a child has failed. *)
Theorem type_failure_short_circuits_node :
  (forall value sch path t errors,
      dict_get sch "type" = Some t ->
      outcome (_validate_type value t path) errors = Returned false ->
      _validate_value value (VDict sch) path errors
        = _validate_type value t path errors /\
      exists msg,
        _validate_value value (VDict sch) path errors
          = (Returned false, (errors ++ [msg])%list)) /\
  (forall array items_schema path errors,
      Forall (fun entry => exists b,
                outcome (item_call items_schema path entry) [] = Returned b)
             (indexed_from 0 array) ->
      _validate_array_items _validate_value array items_schema path errors =
      (Returned (forallb (fun e => returns_true (item_call items_schema path e))
                         (indexed_from 0 array)),
       (errors ++ List.concat (map (fun e => errors_after (item_call items_schema path e) [])
                              (indexed_from 0 array)))%list)) /\
  (forall obj ps path errors,
      Forall (fun entry => exists b,
                outcome (property_call ps path entry) [] = Returned b) obj ->
      _validate_properties _validate_value obj (VDict ps) path errors =
      (Returned (forallb (fun e => returns_true (property_call ps path e)) obj),
       (errors ++ List.concat (map (fun e => errors_after (property_call ps path e) [])
                              obj))%list)).
Proof.
  split; [| split].
  - intros value sch path t errors Hget Hfail.
    assert (Heq : _validate_value value (VDict sch) path errors
                  = _validate_type value t path errors).
    { rewrite validate_value_unfold. unfold keyword at 1. rewrite Hget.
      unfold bind. unfold outcome in Hfail.
      destruct (_validate_type value t path errors) as [o errors'].
      cbn in Hfail. subst o. reflexivity. }
    split; [exact Heq |]. rewrite Heq. clear Heq.
    unfold outcome in Hfail. revert Hfail.
    unfold _validate_type.
    destruct t;
      match goal with
      | |- context [lift ?r] => destruct r as [[|] | e]
      end; cbn; try discriminate; intros _; eexists; reflexivity.
  - intros array items_schema path errors Hall.
    unfold _validate_array_items. now rewrite array_items_loop_all.
  - intros obj ps path errors Hall.
    unfold _validate_properties. now rewrite properties_loop_all.
Qed.

(** ** Booleans and numbers *)

(** C3. The enum check takes a boolean for the integer it equals: with
    [enum: [1]] the document [true] passes and nothing is appended, and
    likewise [false] with [enum: [0]], although neither list has a
    boolean member. *)
Theorem enum_takes_boolean_for_integer prior :
  validate (VBool true) (VDict [("enum", VList [VInt 1])]) prior
    = (Returned true, []) /\
  validate (VBool false) (VDict [("enum", VList [VInt 0])]) prior
    = (Returned true, []).
Proof. split; reflexivity. Qed.

(** The membership test behind it, for any enum list. *)
Lemma validate_enum_bool_int (b : bool) (l : list pyval) path errors :
  In (VInt (Z_of_bool b)) l ->
  _validate_enum (VBool b) (VList l) path errors = (Returned true, errors).
Proof.
  intros Hin. unfold _validate_enum, py_in, bind, lift, ret.
  assert (Hex : existsb (py_eq (VBool b)) l = true).
  { apply existsb_exists. exists (VInt (Z_of_bool b)). split; [exact Hin |].
    cbn. apply Z.eqb_refl. }
  now rewrite Hex.
Qed.

Lemma check_single_type_bool_numeric (b : bool) (t : pyval) :
  numeric_name t -> _check_single_type (VBool b) t = Returned false.
Proof. intros [-> | ->]; reflexivity. Qed.

Lemma any_single_type_bool_numeric (b : bool) (l : list pyval) :
  Forall numeric_name l -> any_single_type (VBool b) l = Returned false.
Proof.
  induction 1 as [| t rest Ht _ IH]; cbn; [reflexivity |].
  now rewrite (check_single_type_bool_numeric b t Ht).
Qed.

(** C4. A boolean fails the type check of every declaration made of the
    names [number] and [integer], single or in a list: the check returns
    [False] and reports the mismatch, and so does the node that carries
    the declaration. *)
Theorem boolean_is_not_number_or_integer (b : bool) (t : pyval) :
  numeric_declaration t ->
  (forall path errors,
      exists msg,
        _validate_type (VBool b) t path errors
          = (Returned false, (errors ++ [msg])%list)) /\
  (forall sch path errors,
      dict_get sch "type" = Some t ->
      exists msg,
        _validate_value (VBool b) (VDict sch) path errors
          = (Returned false, (errors ++ [msg])%list)).
Proof.
  intros Hdecl.
  assert (Htype : forall path errors, exists msg,
             _validate_type (VBool b) t path errors
               = (Returned false, (errors ++ [msg])%list)).
  { intros path errors. destruct Hdecl as [Hname | (l & -> & Hall)].
    - unfold _validate_type, bind.
      rewrite (check_single_type_bool_numeric b t Hname).
      destruct Hname as [-> | ->]; eexists; reflexivity.
    - unfold _validate_type, bind.
      rewrite (any_single_type_bool_numeric b l Hall).
      eexists; reflexivity. }
  split; [exact Htype |].
  intros sch path errors Hget.
  destruct (Htype path errors) as [msg Hmsg]. exists msg.
  rewrite validate_value_unfold. unfold keyword at 1. rewrite Hget.
  unfold bind. now rewrite Hmsg.
Qed.

(** C5, as the code has it. The name [integer] accepts exactly the values
    of the [int] kind that are not booleans: every such value passes, and
    every other value fails, floats included whatever their value. *)
Theorem integer_accepts_exactly_ints (x : pyval) :
  _check_single_type x (VStr "integer")
    = Returned (match x with VInt _ => true | _ => false end) /\
  forall path errors,
    outcome (_validate_type x (VStr "integer") path) errors
      = Returned (match x with VInt _ => true | _ => false end).
Proof.
  split; [now destruct x |].
  intros path errors. now destruct x.
Qed.

(** ** Schemas without keywords *)

(** C6. A schema object with none of the six keywords accepts every
    document and leaves the error list empty. *)
Theorem vacuous_schema_accepts document sch prior :
  (forall kw, In kw recognized_keywords -> dict_get sch kw = None) ->
  validate document (VDict sch) prior = (Returned true, []).
Proof.
  intros Hnone. unfold validate, bind, errors_clear.
  rewrite validate_value_unfold. unfold keyword.
  rewrite !Hnone by (cbn; tauto). reflexivity.
Qed.

(** ** [pattern] *)

(** C7. For a string and a pattern that compiles, the pattern check
    returns, and it returns [True] exactly when the pattern matches some
    prefix of the string: the first [k] characters for some [k] up to the
    length, not necessarily the whole string. *)
Theorem pattern_matches_a_prefix value pattern r path errors :
  re_compile pattern = Compiled r ->
  exists b,
    outcome (_validate_pattern value (VStr pattern) path) errors = Returned b /\
    (b = true <->
     exists k, (k <= String.length value)%nat /\ re_span r value k = true).
Proof.
  intros Hc. unfold outcome, _validate_pattern, re_match. rewrite Hc.
  set (found := existsb (re_span r value) (seq 0 (S (String.length value)))).
  assert (Hfound : found = true <->
            exists k, (k <= String.length value)%nat /\ re_span r value k = true).
  { unfold found. rewrite existsb_exists. split.
    - intros (k & Hin & Hk). apply in_seq in Hin. exists k. split; [lia | easy].
    - intros (k & Hle & Hk). exists k. split; [apply in_seq; lia | easy]. }
  exists found. destruct found; cbn; split; auto.
Qed.

(** ** Exceptions *)

Lemma returns_ret b : returns (ret b).
Proof. exists b, []. apply appends_ret. Qed.

Lemma returns_report msg b : returns (errors_append msg ;; ret b).
Proof. exists b, [msg]. apply appends_report. Qed.

Lemma returns_bind (m : M bool) (k : bool -> M bool) :
  returns m -> (forall b, returns (k b)) -> returns (bind m k).
Proof.
  intros (b & app & Hm) Hk. destruct (Hk b) as (b' & app' & Hk').
  exists b', (app ++ app')%list. eapply appends_bind; eassumption.
Qed.

Lemma dict_get_forallb {A : Type} (f : string -> A -> bool)
    (d : list (string * A)) k x :
  forallb (fun kv => f (fst kv) (snd kv)) d = true ->
  dict_get d k = Some x ->
  f k x = true.
Proof.
  induction d as [| [k' y] rest IH]; cbn; [discriminate |].
  intros Hall Hget. apply andb_true_iff in Hall. destruct Hall as [Hk Hrest].
  destruct (String.eqb_spec k' k) as [-> |]; [| now apply IH].
  now injection Hget as <-.
Qed.

Lemma any_single_type_str_list value l :
  forallb isinstance_str l = true ->
  exists b, any_single_type value l = Returned b.
Proof.
  induction l as [| t rest IH]; cbn; [now exists false |].
  intros Hall. apply andb_true_iff in Hall. destruct Hall as [Ht Hrest].
  destruct t; try discriminate. unfold _check_single_type.
  destruct (dict_get type_map s) as [test |]; [| now apply IH].
  destruct (test value); [now exists true | now apply IH].
Qed.

Lemma returns_validate_type value t path :
  isinstance_str t || is_str_list t = true ->
  returns (_validate_type value t path).
Proof.
  intros Hshape. unfold _validate_type.
  destruct t; try discriminate.
  - unfold _check_single_type.
    destruct (dict_get type_map s) as [test |]; cbn.
    + destruct (test value); cbn;
        [apply returns_ret | apply returns_report].
    + apply returns_report.
  - cbn in Hshape.
    destruct (any_single_type_str_list value items Hshape) as [b ->].
    destruct b; cbn; [apply returns_ret | apply returns_report].
Qed.

Lemma returns_validate_enum value e path :
  isinstance_list e = true -> returns (_validate_enum value e path).
Proof.
  intros Hshape. destruct e; try discriminate.
  unfold _validate_enum. cbn.
  destruct (existsb (py_eq value) items); cbn;
    [apply returns_ret | apply returns_report].
Qed.

Lemma returns_validate_pattern value p path :
  pattern_shape p = true -> returns (_validate_pattern value p path).
Proof.
  intros Hshape. destruct p; try discriminate.
  unfold _validate_pattern, re_match. cbn in Hshape.
  destruct (re_compile s) as [r | | e]; try discriminate.
  - destruct (existsb _ _); [apply returns_ret | apply returns_report].
  - apply returns_report.
Qed.

Lemma returns_required_loop obj path props valid :
  forallb isinstance_str props = true ->
  returns (required_loop obj path props valid).
Proof.
  revert valid. induction props as [| prop rest IH]; intros valid Hall.
  - apply returns_ret.
  - cbn [forallb] in Hall. apply andb_true_iff in Hall.
    destruct Hall as [Hp Hrest]. destruct prop; try discriminate.
    cbn [required_loop dict_contains lift].
    destruct (IH valid Hrest) as (b1 & app1 & H1).
    destruct (IH false Hrest) as (b0 & app0 & H0).
    destruct (dict_has obj s).
    + exists b1, app1. intros errors. unfold bind, ret. cbn [negb]. apply H1.
    + exists b0, ((path ++ ": Missing required property '" ++ s ++ "'") :: app0).
      intros errors. unfold bind, ret, errors_append. cbn [negb py_str].
      rewrite H0. now rewrite <- app_assoc.
Qed.

Lemma returns_validate_required obj r path :
  is_str_list r = true -> returns (_validate_required obj r path).
Proof.
  intros Hshape. destruct r; try discriminate.
  unfold _validate_required. cbn.
  destruct (returns_required_loop obj path items true Hshape)
    as (b & app & Happ).
  exists b, app. change app with ([] ++ app)%list.
  eapply appends_bind; [apply appends_ret | exact Happ].
Qed.

Lemma returns_keyword sch kw applicable check rest :
  (forall arg, dict_get sch kw = Some arg -> applicable = true ->
               returns (check arg)) ->
  returns rest ->
  returns (keyword sch kw applicable check rest).
Proof.
  intros Hcheck Hrest. unfold keyword.
  destruct (dict_get sch kw) as [arg |]; [| exact Hrest].
  destruct applicable; [| exact Hrest].
  apply returns_bind; [now apply Hcheck |].
  intros [|]; cbn [negb]; [exact Hrest | apply returns_ret].
Qed.

Lemma returns_properties_loop obj ps path valid :
  Forall (fun kv => forall schema p, well_shaped schema = true ->
            returns (_validate_value (snd kv) schema p)) obj ->
  forallb (fun kv => well_shaped (snd kv)) ps = true ->
  returns (properties_loop _validate_value obj (VDict ps) path valid).
Proof.
  intros Hall Hps. revert valid.
  induction Hall as [| [prop value] rest Hkv _ IH]; intros valid; cbn.
  - apply returns_ret.
  - unfold dict_has.
    destruct (dict_get ps prop) as [sub |] eqn:Hget; cbn.
    + change (returns (bind (ret true) (fun _ =>
                bind (ret sub) (fun sub0 =>
                  bind (_validate_value value sub0
                          (if negb (path =? "") then path ++ "." ++ prop
                           else prop))
                    (fun ok => if negb ok
                      then properties_loop _validate_value rest (VDict ps) path false
                      else properties_loop _validate_value rest (VDict ps) path valid))))).
      destruct (Hkv sub (if negb (path =? "") then path ++ "." ++ prop else prop))
        as (b & app & Happ).
      { exact (dict_get_forallb (fun _ s => well_shaped s) ps prop sub Hps Hget). }
      destruct (IH (if negb b then false else valid)) as (b' & app' & Happ').
      exists b', (app ++ app')%list.
      change (app ++ app')%list with ([] ++ [] ++ app ++ app')%list.
      eapply appends_bind; [apply appends_ret |].
      eapply appends_bind; [apply appends_ret |].
      eapply appends_bind; [exact Happ |].
      destruct b; exact Happ'.
    + destruct (IH valid) as (b' & app' & Happ').
      exists b', app'. change app' with ([] ++ app')%list.
      eapply appends_bind; [apply appends_ret | exact Happ'].
Qed.

Lemma returns_array_items_loop i items items_schema path valid :
  Forall (fun item => forall schema p, well_shaped schema = true ->
            returns (_validate_value item schema p)) items ->
  well_shaped items_schema = true ->
  returns (array_items_loop _validate_value i items items_schema path valid).
Proof.
  intros Hall Hs. revert i valid.
  induction Hall as [| item rest Hitem _ IH]; intros i valid; cbn.
  - apply returns_ret.
  - apply returns_bind; [now apply Hitem |].
    intros [|]; cbn [negb]; apply IH.
Qed.

Lemma returns_validate_value value :
  forall schema path,
    well_shaped schema = true ->
    returns (_validate_value value schema path).
Proof.
  induction value using pyval_nested_ind; intros schema path Hshape;
    rewrite validate_value_unfold;
    (destruct schema as [| | | | | | sch]; try apply returns_report);
    cbn [well_shaped] in Hshape;
    pose proof (dict_get_forallb (keyword_shape well_shaped) sch) as Hkw;
    specialize (fun k x => Hkw k x Hshape);
    repeat (apply returns_keyword;
            [intros arg Hget Happl; apply Hkw in Hget; cbn in Hget;
             try discriminate Happl;
             first [now apply returns_validate_type
                   | now apply returns_validate_enum
                   | now apply returns_validate_pattern
                   | now apply returns_validate_required
                   | idtac] |]);
    try apply returns_ret.
  - now apply returns_array_items_loop.
  - destruct arg; try discriminate. now apply returns_properties_loop.
Qed.

(** C8, as the code has it. A pattern the engine rejects with [re.error]
    makes the pattern check append one [Invalid regex pattern] message
    and return [False]; and [validate] returns a boolean, raising
    nothing, on every document when the schema is well shaped.  A keyword
    of another kind is not covered: its exception leaves [validate]. *)
Theorem regex_error_is_reported :
  (forall value pattern path errors,
      re_compile pattern = ReError ->
      _validate_pattern value (VStr pattern) path errors
        = (Returned false,
           (errors
            ++ [(path ++ ": Invalid regex pattern '" ++ pattern ++ "'")%string])%list)) /\
  (forall document schema prior,
      well_shaped schema = true ->
      exists b errors, validate document schema prior = (Returned b, errors)).
Proof.
  split.
  - intros value pattern path errors Hc.
    unfold _validate_pattern, re_match. now rewrite Hc.
  - intros document schema prior Hshape.
    destruct (returns_validate_value document schema "" Hshape)
      as (b & app & Happ).
    exists b, app. unfold validate, bind, errors_clear. now rewrite Happ.
Qed.

(** ** [required] *)

Lemma string_length_append (s t : string) :
  String.length (s ++ t) = (String.length s + String.length t)%nat.
Proof. induction s as [| c s IH]; cbn; [reflexivity | now rewrite IH]. Qed.

Lemma string_append_inj_l (s a b : string) : s ++ a = s ++ b -> a = b.
Proof.
  induction s as [| c s IH]; cbn; [easy |]. intros [= H]. now apply IH.
Qed.

Lemma string_append_inj_r (c : string) : forall a b, a ++ c = b ++ c -> a = b.
Proof.
  induction a as [| x a IH]; intros [| y b] H; cbn in H.
  - reflexivity.
  - apply (f_equal String.length) in H. cbn in H.
    rewrite string_length_append in H. lia.
  - apply (f_equal String.length) in H. cbn in H.
    rewrite string_length_append in H. lia.
  - injection H as -> H. f_equal. now apply IH.
Qed.

Lemma missing_message_inj path n n' :
  missing_message path n = missing_message path n' -> n = n'.
Proof.
  unfold missing_message. intros H.
  apply string_append_inj_l in H. apply string_append_inj_l in H.
  now apply string_append_inj_r in H.
Qed.

Lemma required_loop_names obj path names : forall valid errors,
  required_loop obj path (map VStr names) valid errors =
  (Returned (valid && forallb (dict_has obj) names),
   (errors ++ map (missing_message path) (filter (absent obj) names))%list).
Proof.
  induction names as [| n rest IH]; intros valid errors.
  - cbn. now rewrite andb_true_r, app_nil_r.
  - cbn [map required_loop dict_contains lift forallb filter].
    unfold bind at 1. unfold ret at 1. unfold absent at 1.
    destruct (dict_has obj n); cbn [negb andb].
    + apply IH.
    + unfold bind, errors_append. rewrite IH. cbn [map py_str].
      now rewrite <- app_assoc, andb_false_r.
Qed.

(** C9. On a list of names the required check goes through the whole
    list: it returns [True] exactly when every name is a key of the
    object, and what it appends is one message per listed name that is
    absent, in the order of the list and all at the path of the object.
    When the list has no repetition each absent name has exactly one
    message. *)
Theorem required_reports_every_missing_name obj names path errors :
  _validate_required obj (VList (map VStr names)) path errors =
  (Returned (forallb (dict_has obj) names),
   (errors ++ map (missing_message path) (filter (absent obj) names))%list) /\
  List.length (map (missing_message path) (filter (absent obj) names))
    = List.length (filter (absent obj) names) /\
  (NoDup names ->
   forall n, In n names -> absent obj n = true ->
     count_occ string_dec
       (map (missing_message path) (filter (absent obj) names))
       (missing_message path n) = 1%nat).
Proof.
  split; [| split].
  - unfold _validate_required. cbn [py_iter lift]. unfold bind at 1, ret at 1.
    now rewrite required_loop_names.
  - apply length_map.
  - intros Hnodup n Hin Habs.
    rewrite <- (count_occ_map (missing_message path) string_dec string_dec
                  (missing_message_inj path)).
    apply NoDup_count_occ'; [now apply NoDup_filter |].
    apply filter_In. now split.
Qed.

(** ** Messages of the root *)

Lemma prefix_append (s t : string) : String.prefix s (s ++ t) = true.
Proof.
  induction s as [| c s IH]; cbn; [now destruct t |].
  destruct (ascii_dec c c); [exact IH | congruence].
Qed.

Lemma at_path_ret path b : at_path path (ret b).
Proof. exists (Returned b), []. split; [apply appends_ret | constructor]. Qed.

Lemma at_path_raise path e : at_path path (raise e).
Proof. exists (Raised e), []. split; [apply appends_raise | constructor]. Qed.

Lemma at_path_report path rest b :
  at_path path (errors_append (path ++ ": " ++ rest) ;; ret b).
Proof.
  exists (Returned b), [path ++ ": " ++ rest].
  split; [apply appends_report |].
  constructor; [| constructor].
  change (path ++ ": " ++ rest) with (path ++ String ":" (String " " rest)).
  replace (path ++ String ":" (String " " rest)) with ((path ++ ": ") ++ rest).
  - apply prefix_append.
  - clear. induction path as [| c p IH]; cbn; [reflexivity | now rewrite IH].
Qed.

Lemma at_path_lift_bind {A : Type} path (r : result A) (k : A -> M bool) :
  (forall a, at_path path (k a)) -> at_path path (bind (lift r) k).
Proof.
  intros Hk. destruct r as [a | e].
  - destruct (Hk a) as (o & app & Happ & Hall). exists o, app.
    split; [| exact Hall]. change app with ([] ++ app)%list.
    eapply appends_bind; [apply appends_ret | exact Happ].
  - exists (Raised e), []. split; [| constructor].
    apply appends_bind_raised, appends_raise.
Qed.

Lemma at_path_bind path (m : M bool) (k : bool -> M bool) :
  at_path path m -> (forall b, at_path path (k b)) -> at_path path (bind m k).
Proof.
  intros (o & app & Happ & Hall) Hk. destruct o as [b | e].
  - destruct (Hk b) as (o' & app' & Happ' & Hall').
    exists o', (app ++ app')%list. split.
    + eapply appends_bind; eassumption.
    + apply Forall_app. now split.
  - exists (Raised e), app. split; [now apply appends_bind_raised | exact Hall].
Qed.

Lemma at_path_validate_type value t path :
  at_path path (_validate_type value t path).
Proof.
  unfold _validate_type.
  destruct t; apply at_path_lift_bind; intros [|]; cbn [negb];
    first [apply at_path_ret | apply (at_path_report path)].
Qed.

Lemma at_path_validate_enum value e path :
  at_path path (_validate_enum value e path).
Proof.
  unfold _validate_enum.
  apply at_path_lift_bind; intros [|]; cbn [negb];
    first [apply at_path_ret | apply (at_path_report path)].
Qed.

Lemma at_path_validate_pattern value p path :
  at_path path (_validate_pattern value p path).
Proof.
  unfold _validate_pattern.
  destruct (re_match p value) as [[|] | | e];
    first [apply at_path_ret | apply (at_path_report path)
          | apply at_path_raise].
Qed.

Lemma at_path_required_loop obj path props valid :
  at_path path (required_loop obj path props valid).
Proof.
  revert valid. induction props as [| prop rest IH]; intros valid.
  - apply at_path_ret.
  - cbn [required_loop]. apply at_path_lift_bind. intros [|]; cbn [negb].
    + apply IH.
    + destruct (IH false) as (o & app & Happ & Hall).
      destruct (at_path_report path
                  ("Missing required property '" ++ py_str prop ++ "'") true)
        as (o1 & app1 & Happ1 & Hall1).
      destruct (appends_unique _ _ _ _ _ Happ1 (appends_report _ true))
        as [_ ->].
      eexists o, (_ :: app). split.
      * change (?m :: app) with ([m] ++ app)%list.
        eapply appends_bind; [apply appends_errors_append | exact Happ].
      * constructor; [| exact Hall]. now inversion Hall1.
Qed.

Lemma at_path_validate_required obj r path :
  at_path path (_validate_required obj r path).
Proof.
  unfold _validate_required. apply at_path_lift_bind.
  intros props. apply at_path_required_loop.
Qed.

Lemma at_path_keyword path sch kw applicable check rest :
  (forall arg, dict_get sch kw = Some arg -> at_path path (check arg)) ->
  at_path path rest ->
  at_path path (keyword sch kw applicable check rest).
Proof.
  intros Hcheck Hrest. unfold keyword.
  destruct (dict_get sch kw) as [arg |]; [| exact Hrest].
  destruct applicable; [| exact Hrest].
  apply at_path_bind; [now apply Hcheck |].
  intros [|]; cbn [negb]; [exact Hrest | apply at_path_ret].
Qed.

(** C10. At the root the path is the empty string, so the messages made
    there start with a colon and a space: the message for a schema that is
    not an object, which is then the whole error list, and the messages of
    the type, enum, pattern and required checks called with the empty
    path.  When the schema has neither [properties] nor [items] no other
    node is visited and every error of [validate] starts that way. *)
Theorem root_messages_start_with_colon_space :
  (forall document schema prior,
      isinstance_dict schema = false ->
      validate document schema prior
        = (Returned false, [": Schema must be an object"])) /\
  (forall value t, at_path "" (_validate_type value t "")) /\
  (forall value e, at_path "" (_validate_enum value e "")) /\
  (forall s p, at_path "" (_validate_pattern s p "")) /\
  (forall obj r, at_path "" (_validate_required obj r "")) /\
  (forall document sch prior,
      dict_get sch "properties" = None ->
      dict_get sch "items" = None ->
      Forall (fun msg => String.prefix ": " msg = true)
             (errors_after (validate document (VDict sch)) prior)).
Proof.
  repeat split.
  - intros document schema prior Hnd. unfold validate, bind, errors_clear.
    rewrite validate_value_unfold. now destruct schema.
  - intros; apply at_path_validate_type.
  - intros; apply at_path_validate_enum.
  - intros; apply at_path_validate_pattern.
  - intros; apply at_path_validate_required.
  - intros document sch prior Hprops Hitems.
    assert (Hroot : at_path "" (_validate_value document (VDict sch) "")).
    { rewrite validate_value_unfold.
      apply at_path_keyword; [intros; apply at_path_validate_type |].
      apply at_path_keyword; [intros; apply at_path_validate_enum |].
      apply at_path_keyword;
        [intros; destruct document;
         first [apply at_path_validate_pattern | apply at_path_ret] |].
      apply at_path_keyword;
        [intros; destruct document;
         first [apply at_path_validate_required | apply at_path_ret] |].
      apply at_path_keyword; [intros arg Hget; congruence |].
      apply at_path_keyword; [intros arg Hget; congruence |].
      apply at_path_ret. }
    destruct Hroot as (o & app & Happ & Hall).
    unfold errors_after, validate, bind, errors_clear.
    rewrite (Happ []). exact Hall.
Qed.

End Properties.

(** * Further properties of the validator *)

Section Further.
Context {R : Runtime}.

(** ** The error list only grows *)

(** X1. A call of [_validate_value] keeps what the error list held and
    adds to its end; what it adds and how it ends do not depend on what the
    list held, also when the call ends with an exception. *)
Theorem error_list_only_grows value schema path :
  exists o app,
    forall errors,
      _validate_value value schema path errors = (o, (errors ++ app)%list).
Proof.
  destruct (tracked_validate_value value schema path) as (o & app & Happ & _).
  exists o, app. exact Happ.
Qed.

(** ** Messages are located under the node that made them *)

Lemma prefix_trans (a b c : string) :
  String.prefix a b = true -> String.prefix b c = true ->
  String.prefix a c = true.
Proof.
  revert b c. induction a as [| x a IH]; intros b c Hab Hbc; [now destruct c |].
  destruct b as [| y b]; [discriminate |].
  destruct c as [| z c]; [discriminate |].
  cbn in *.
  destruct (ascii_dec x y) as [-> |]; [| discriminate].
  destruct (ascii_dec y z) as [-> |]; [| discriminate].
  eauto.
Qed.

Lemma prefix_nil (s : string) : String.prefix "" s = true.
Proof. now destruct s. Qed.

Lemma under_path_weaken p q (m : M bool) :
  String.prefix p q = true -> under_path q m -> under_path p m.
Proof.
  intros Hpq (o & app & Happ & Hall). exists o, app. split; [exact Happ |].
  eapply Forall_impl; [| exact Hall].
  intros msg Hq. cbv beta in *. eapply prefix_trans; eassumption.
Qed.

Lemma at_path_under_path path (m : M bool) :
  at_path path m -> under_path path m.
Proof.
  intros (o & app & Happ & Hall). exists o, app. split; [exact Happ |].
  eapply Forall_impl; [| exact Hall].
  intros msg Hq. cbv beta in *.
  eapply prefix_trans; [apply prefix_append | exact Hq].
Qed.

Lemma under_path_ret path b : under_path path (ret b).
Proof. exists (Returned b), []. split; [apply appends_ret | constructor]. Qed.

Lemma under_path_lift_bind {A : Type} path (r : result A) (k : A -> M bool) :
  (forall a, under_path path (k a)) -> under_path path (bind (lift r) k).
Proof.
  intros Hk. destruct r as [a | e].
  - destruct (Hk a) as (o & app & Happ & Hall). exists o, app.
    split; [| exact Hall]. change app with ([] ++ app)%list.
    eapply appends_bind; [apply appends_ret | exact Happ].
  - exists (Raised e), []. split; [| constructor].
    apply appends_bind_raised, appends_raise.
Qed.

Lemma under_path_bind path (m : M bool) (k : bool -> M bool) :
  under_path path m -> (forall b, under_path path (k b)) ->
  under_path path (bind m k).
Proof.
  intros (o & app & Happ & Hall) Hk. destruct o as [b | e].
  - destruct (Hk b) as (o' & app' & Happ' & Hall').
    exists o', (app ++ app')%list. split.
    + eapply appends_bind; eassumption.
    + apply Forall_app. now split.
  - exists (Raised e), app. split; [now apply appends_bind_raised | exact Hall].
Qed.

Lemma under_path_keyword path sch kw applicable check rest :
  (forall arg, under_path path (check arg)) ->
  under_path path rest ->
  under_path path (keyword sch kw applicable check rest).
Proof.
  intros Hcheck Hrest. unfold keyword.
  destruct (dict_get sch kw) as [arg |]; [| exact Hrest].
  destruct applicable; [| exact Hrest].
  apply under_path_bind; [now apply Hcheck |].
  intros [|]; cbn [negb]; [exact Hrest | apply under_path_ret].
Qed.

Lemma prefix_prop_path path prop :
  String.prefix path (prop_path path prop) = true.
Proof.
  unfold prop_path. destruct (String.eqb_spec path "") as [-> |]; cbn [negb].
  - apply prefix_nil.
  - apply prefix_append.
Qed.

Lemma prefix_item_path path i :
  String.prefix path (item_path path i) = true.
Proof. apply prefix_append. Qed.

Lemma under_path_properties_loop obj ps path valid :
  Forall (fun kv => forall schema p,
            under_path p (_validate_value (snd kv) schema p)) obj ->
  under_path path (properties_loop _validate_value obj ps path valid).
Proof.
  intros Hall. revert valid.
  induction Hall as [| [prop value] rest Hkv _ IH]; intros valid.
  - apply under_path_ret.
  - cbn [properties_loop]. apply under_path_lift_bind. intros [|]; [| apply IH].
    apply under_path_lift_bind. intros sub.
    apply under_path_bind.
    + apply (under_path_weaken path (prop_path path prop));
        [apply prefix_prop_path | apply Hkv].
    + intros [|]; cbn [negb]; apply IH.
Qed.

Lemma under_path_array_items_loop i items items_schema path valid :
  Forall (fun item => forall schema p,
            under_path p (_validate_value item schema p)) items ->
  under_path path
    (array_items_loop _validate_value i items items_schema path valid).
Proof.
  intros Hall. revert i valid.
  induction Hall as [| item rest Hitem _ IH]; intros i valid.
  - apply under_path_ret.
  - cbn [array_items_loop]. apply under_path_bind.
    + apply (under_path_weaken path (item_path path i));
        [apply prefix_item_path | apply Hitem].
    + intros [|]; cbn [negb]; apply IH.
Qed.

Lemma under_path_validate_value value :
  forall schema path, under_path path (_validate_value value schema path).
Proof.
  induction value using pyval_nested_ind; intros schema path;
    rewrite validate_value_unfold;
    (destruct schema as [| | | | | | sch];
     try (apply at_path_under_path; apply (at_path_report path)));
    repeat (apply under_path_keyword;
            [intros arg;
             first [apply at_path_under_path, at_path_validate_type
                   | apply at_path_under_path, at_path_validate_enum
                   | apply at_path_under_path, at_path_validate_pattern
                   | apply at_path_under_path, at_path_validate_required
                   | apply under_path_ret
                   | idtac] |]);
    try apply under_path_ret.
  - apply under_path_array_items_loop. assumption.
  - apply under_path_properties_loop. assumption.
Qed.

(** X2. Every message that the validation of a node appends, for the
    node itself or for anything below it, starts with the path of the
    node, also when the call ends with an exception. *)
Theorem messages_start_with_node_path value schema path errors :
  exists app,
    errors_after (_validate_value value schema path) errors
      = (errors ++ app)%list /\
    Forall (fun msg => String.prefix path msg = true) app.
Proof.
  destruct (under_path_validate_value value schema path)
    as (o & app & Happ & Hall).
  exists app. split; [| exact Hall].
  unfold errors_after. now rewrite Happ.
Qed.

Lemma tracked_true_keeps (m : M bool) errors :
  tracked true m -> outcome m errors = Returned true ->
  m errors = (Returned true, errors).
Proof.
  intros (o & app & Happ & Hb) Hout. unfold outcome in Hout.
  rewrite Happ in *. cbn in Hout. subst o.
  destruct (proj1 (Hb true eq_refl) eq_refl) as [_ ->].
  now rewrite app_nil_r.
Qed.

Lemma returns_true_no_errors (m : M bool) :
  tracked true m -> returns_true m = true -> errors_after m [] = [].
Proof.
  intros Ht Hret. unfold returns_true in Hret.
  destruct (outcome m []) as [[|] | e] eqn:Hout; try discriminate.
  unfold errors_after. now rewrite (tracked_true_keeps m [] Ht Hout).
Qed.

(** X3. When the elements of an array all return and only the element at
    index [k] is invalid, every message of the [items] check starts with
    the path of that element. *)
Theorem only_the_invalid_item_is_reported array items_schema path k errors :
  Forall (fun entry => exists b,
            outcome (item_call items_schema path entry) [] = Returned b)
         (indexed_from 0 array) ->
  (forall entry, In entry (indexed_from 0 array) -> fst entry <> k ->
     returns_true (item_call items_schema path entry) = true) ->
  exists app,
    errors_after (_validate_array_items _validate_value array items_schema path)
                 errors = (errors ++ app)%list /\
    Forall (fun msg => String.prefix (item_path path k) msg = true) app.
Proof.
  intros Hret Hvalid. unfold errors_after, _validate_array_items.
  rewrite array_items_loop_all by exact Hret. cbn [snd].
  eexists. split; [reflexivity |].
  apply Forall_concat, Forall_map, Forall_forall.
  intros [i item] Hin.
  destruct (Nat.eq_dec i k) as [-> | Hne].
  - destruct (under_path_validate_value item items_schema (item_path path k))
      as (o & app & Happ & Hall).
    unfold item_call. cbn [fst snd].
    destruct (appends_run _ _ _ Happ) as [_ ->]. exact Hall.
  - rewrite returns_true_no_errors; [constructor | |].
    + apply tracked_validate_value.
    + now apply Hvalid.
Qed.

(** ** Type names *)

Lemma check_single_type_str x name :
  _check_single_type x (VStr name) = Returned (type_accepts x name).
Proof.
  unfold _check_single_type, type_accepts.
  now destruct (dict_get type_map name).
Qed.

Lemma dict_get_some_in {A : Type} (d : list (string * A)) k x :
  dict_get d k = Some x -> In k (map fst d).
Proof.
  induction d as [| [k' y] rest IH]; cbn; [discriminate |].
  destruct (String.eqb_spec k' k) as [-> |]; [now left | right; auto].
Qed.

(** X4. The six names [string], [number], [boolean], [object], [array]
    and [null] split the values: each value passes the type check of
    exactly one of them.  The name [integer] selects among the numbers:
    what passes it passes [number]. *)
Theorem kinds_split_the_values (x : pyval) :
  (exists name,
      In name kind_names /\
      _check_single_type x (VStr name) = Returned true /\
      forall name',
        In name' kind_names ->
        _check_single_type x (VStr name') = Returned true ->
        name' = name) /\
  (_check_single_type x (VStr "integer") = Returned true ->
   _check_single_type x (VStr "number") = Returned true).
Proof.
  split.
  - destruct x;
      [exists "null" | exists "boolean" | exists "number" | exists "number"
      | exists "string" | exists "array" | exists "object"];
      (split; [cbn; tauto |]); (split; [reflexivity |]);
      intros name' Hin;
      cbn in Hin;
      destruct Hin as [<- | [<- | [<- | [<- | [<- | [<- | []]]]]]];
      cbn; intros H; first [reflexivity | discriminate H].
  - destruct x; cbn; intros H; first [reflexivity | discriminate H].
Qed.

(** X5. A type check succeeds only for one of the seven names: for any
    other argument that can be hashed it fails whatever the value is, and
    a node that declares such a type rejects every value with one
    message. *)
Theorem unknown_type_name_rejects :
  (forall x t,
      _check_single_type x t = Returned true ->
      exists name, t = VStr name /\ In name type_names) /\
  (forall x t sch path errors,
      hashable t = true ->
      (forall name, t = VStr name -> ~ In name type_names) ->
      dict_get sch "type" = Some t ->
      exists msg,
        _validate_value x (VDict sch) path errors
          = (Returned false, (errors ++ [msg])%list)).
Proof.
  assert (Hnames : forall x t,
             _check_single_type x t = Returned true ->
             exists name, t = VStr name /\ In name type_names).
  { intros x t H. destruct t; try discriminate H.
    exists s. split; [reflexivity |].
    unfold _check_single_type in H.
    destruct (dict_get type_map s) as [test |] eqn:Hget; [| discriminate H].
    exact (dict_get_some_in type_map s test Hget). }
  split; [exact Hnames |].
  intros x t sch path errors Hhash Hunknown Hget.
  assert (Hfalse : _check_single_type x t = Returned false).
  { destruct (_check_single_type x t) as [[|] | e] eqn:Hc.
    - destruct (Hnames x t Hc) as (name & -> & Hin).
      now destruct (Hunknown name eq_refl).
    - reflexivity.
    - exfalso. destruct t; try discriminate Hhash; try discriminate Hc.
      unfold _check_single_type in Hc.
      destruct (dict_get type_map s); discriminate Hc. }
  rewrite validate_value_unfold. unfold keyword at 1. rewrite Hget.
  unfold bind, _validate_type.
  destruct t; try discriminate Hhash; rewrite Hfalse; eexists; reflexivity.
Qed.

Lemma any_single_type_names x names :
  any_single_type x (map VStr names)
    = Returned (existsb (type_accepts x) names).
Proof.
  induction names as [| n rest IH]; [reflexivity |].
  cbn [map any_single_type existsb]. rewrite check_single_type_str.
  destruct (type_accepts x n); [reflexivity | exact IH].
Qed.

Lemma any_single_type_early x before t after :
  Forall (fun t' => hashable t' = true) before ->
  _check_single_type x t = Returned true ->
  any_single_type x (before ++ t :: after) = Returned true.
Proof.
  intros Hall Ht. induction Hall as [| t' rest Ht' _ IH]; cbn.
  - now rewrite Ht.
  - destruct (_check_single_type x t') as [[|] | e] eqn:Hc;
      [reflexivity | exact IH |].
    exfalso. destruct t'; try discriminate Ht'; try discriminate Hc.
    unfold _check_single_type in Hc.
    destruct (dict_get type_map s); discriminate Hc.
Qed.

(** X6. A list of type names is a disjunction tried from the left: on a
    list of names the type check returns [True] exactly when one of them
    accepts the value, and it appends one message when none does.  The
    search stops at the first name that accepts, so that whatever follows
    it in the list, even an entry that cannot be hashed, is not looked
    at. *)
Theorem type_list_is_a_disjunction x path errors :
  (forall names,
      exists app,
        _validate_type x (VList (map VStr names)) path errors
          = (Returned (existsb (type_accepts x) names), (errors ++ app)%list) /\
        List.length app
          = if existsb (type_accepts x) names then 0%nat else 1%nat) /\
  (forall before t after,
      Forall (fun t' => hashable t' = true) before ->
      _check_single_type x t = Returned true ->
      _validate_type x (VList (before ++ t :: after)) path errors
        = (Returned true, errors)).
Proof.
  split.
  - intros names. unfold _validate_type, bind.
    rewrite any_single_type_names.
    destruct (existsb (type_accepts x) names); cbn.
    + exists []. now rewrite app_nil_r.
    + eexists [_]. split; reflexivity.
  - intros before t after Hall Ht. unfold _validate_type, bind.
    now rewrite (any_single_type_early x before t after Hall Ht).
Qed.

(** ** [enum] *)







(** ** The first failing keyword ends the node *)

(** X8. At a node whose [type], if it has one, is satisfied, a failed
    enum check ends the node: the result of the node is the result of the
    enum check, and [pattern], [required], [properties] and [items] are
    not looked at. *)
Theorem enum_failure_ends_the_node value sch path e errors :
  (forall t, dict_get sch "type" = Some t ->
     outcome (_validate_type value t path) errors = Returned true) ->
  dict_get sch "enum" = Some e ->
  outcome (_validate_enum value e path) errors = Returned false ->
  _validate_value value (VDict sch) path errors
    = _validate_enum value e path errors.
Proof.
  intros Htype Hget Hfail. rewrite validate_value_unfold.
  unfold keyword at 1.
  assert (Hskip : forall rest : M bool,
    match dict_get sch "type" with
    | Some arg =>
        bind (_validate_type value arg path)
             (fun ok => if negb ok then ret false else rest)
    | None => rest
    end errors = rest errors).
  { intros rest. destruct (dict_get sch "type") as [t |]; [| reflexivity].
    unfold bind.
    now rewrite (tracked_true_keeps _ errors
                   (tracked_validate_type value t path) (Htype t eq_refl)). }
  rewrite Hskip. unfold keyword at 1. rewrite Hget.
  unfold bind. unfold outcome in Hfail.
  destruct (_validate_enum value e path errors) as [o errors'].
  cbn in Hfail. subst o. reflexivity.
Qed.

(** A check that returned [True] left the list as it was: step over it. *)
Ltac pass_check Htracked Hout :=
  unfold bind at 1;
  rewrite (tracked_true_keeps _ _ Htracked Hout);
  cbn [negb].

(** X9. On an object whose [type] and [enum], if present, are satisfied,
    a failed required check ends the node: the result is the result of
    the required check, and the properties of the object are not
    validated. *)
Theorem missing_property_hides_the_properties obj sch path r errors :
  (forall t, dict_get sch "type" = Some t ->
     outcome (_validate_type (VDict obj) t path) errors = Returned true) ->
  (forall e, dict_get sch "enum" = Some e ->
     outcome (_validate_enum (VDict obj) e path) errors = Returned true) ->
  dict_get sch "required" = Some r ->
  outcome (_validate_required obj r path) errors = Returned false ->
  _validate_value (VDict obj) (VDict sch) path errors
    = _validate_required obj r path errors.
Proof.
  intros Htype Henum Hget Hfail. rewrite validate_value_unfold.
  unfold keyword at 1.
  destruct (dict_get sch "type") as [t |];
    [pass_check (tracked_validate_type (VDict obj) t path) (Htype t eq_refl) |];
    unfold keyword at 1;
    (destruct (dict_get sch "enum") as [e |];
     [pass_check (tracked_validate_enum (VDict obj) e path) (Henum e eq_refl) |]);
    unfold keyword at 1;
    destruct (dict_get sch "pattern"); cbn [isinstance_str];
    unfold keyword at 1; rewrite Hget; cbn [isinstance_dict];
    unfold bind; unfold outcome in Hfail;
    destruct (_validate_required obj r path errors) as [o errors'];
    cbn in Hfail; subst o; reflexivity.
Qed.

(** ** Keywords apply to one kind of value *)

(** X10. [pattern] is looked at for strings only, [required] and
    [properties] for objects only, [items] for arrays only.  A schema that
    has none of the keywords that apply to the kind of the document
    accepts it with an empty error list, whatever its other keywords
    hold. *)
Theorem inapplicable_keywords_are_ignored document sch prior :
  (forall kw, In kw (applicable_keywords document) -> dict_get sch kw = None) ->
  validate document (VDict sch) prior = (Returned true, []).
Proof.
  intros Hnone. unfold validate, bind, errors_clear.
  rewrite validate_value_unfold. unfold keyword.
  rewrite (Hnone "type") by (cbn; tauto).
  rewrite (Hnone "enum") by (cbn; tauto).
  destruct document; cbn [isinstance_str isinstance_dict isinstance_list];
    rewrite ?(Hnone "pattern"), ?(Hnone "required"), ?(Hnone "properties"),
            ?(Hnone "items") by (cbn; tauto);
    repeat match goal with
           | |- context [dict_get sch ?kw] => destruct (dict_get sch kw)
           end;
    reflexivity.
Qed.

(** ** [properties] *)

Lemma properties_loop_declared ps obj : forall path valid errors,
  properties_loop _validate_value obj (VDict ps) path valid errors
    = properties_loop _validate_value (filter (declared ps) obj) (VDict ps)
        path valid errors.
Proof.
  induction obj as [| [prop value] rest IH]; intros path valid errors;
    [reflexivity |].
  cbn [filter]. unfold declared at 1. cbn [fst].
  destruct (dict_has ps prop) eqn:Hhas.
  - cbn [properties_loop py_in dict_contains]. rewrite Hhas.
    cbn [lift]. unfold bind, ret.
    destruct (py_getitem (VDict ps) prop) as [sub | e]; cbn [lift];
      [| reflexivity].
    unfold ret.
    destruct (_validate_value value sub _ errors) as [[[|] | e] errors'];
      cbn [negb]; [apply IH | apply IH | reflexivity].
  - cbn [properties_loop py_in dict_contains]. rewrite Hhas.
    cbn [lift]. unfold bind at 1, ret at 1. apply IH.
Qed.

(** X11. The properties check looks only at the entries of the object
    whose key the [properties] object declares: the other entries can be
    dropped without changing the result, and an object none of whose keys
    is declared passes with nothing appended.  A declared key that the
    object lacks is not reported. *)
Theorem undeclared_properties_are_ignored obj ps path errors :
  _validate_properties _validate_value obj (VDict ps) path errors
    = _validate_properties _validate_value (filter (declared ps) obj)
        (VDict ps) path errors /\
  ((forall entry, In entry obj -> dict_get ps (fst entry) = None) ->
   _validate_properties _validate_value obj (VDict ps) path errors
     = (Returned true, errors)).
Proof.
  split; [apply properties_loop_declared |].
  intros Hnone. unfold _validate_properties.
  rewrite properties_loop_declared.
  replace (filter (declared ps) obj) with (@nil (string * pyval));
    [reflexivity |].
  symmetry. induction obj as [| entry rest IH]; [reflexivity |].
  cbn [filter]. unfold declared at 1, dict_has.
  rewrite (Hnone entry) by now left.
  apply IH. intros e He. apply Hnone. now right.
Qed.

(** ** [items] *)

Lemma array_items_loop_not_schema items s path : forall i valid errors,
  isinstance_dict s = false ->
  array_items_loop _validate_value i items s path valid errors =
  (Returned (match items with [] => valid | _ => false end),
   (errors ++ map (fun entry => (item_path path (fst entry)
                                 ++ ": Schema must be an object")%string)
                  (indexed_from i items))%list).
Proof.
  induction items as [| item rest IH]; intros i valid errors Hs.
  - cbn. now rewrite app_nil_r.
  - cbn [array_items_loop]. unfold bind at 1.
    rewrite validate_value_unfold.
    destruct s; try discriminate Hs;
      unfold bind, errors_append, ret; cbn [negb];
      rewrite (IH (S i) false _ Hs);
      unfold indexed_from; cbn [List.length seq combine map fst];
      rewrite <- app_assoc; destruct rest; reflexivity.
Qed.

(** X12. When the value of [items] is not an object, the items check
    reports it once for each element of the array, at the path of the
    element, and fails; on the empty array it reports nothing and
    passes. *)
Theorem items_that_is_no_schema array s path errors :
  isinstance_dict s = false ->
  _validate_array_items _validate_value array s path errors =
  (Returned (match array with [] => true | _ => false end),
   (errors ++ map (fun entry => (item_path path (fst entry)
                                 ++ ": Schema must be an object")%string)
                  (indexed_from 0 array))%list).
Proof.
  intros Hs. unfold _validate_array_items.
  now apply array_items_loop_not_schema.
Qed.

(** ** The verdict does not depend on the early exits *)



















(** X16. When the declared properties of an object all return and only
    those under the key [k] are invalid, every message of the properties
    check starts with the path of that property: [k] itself at the root,
    the path of the object, a dot and [k] elsewhere. *)
Theorem only_the_invalid_property_is_reported obj ps path k errors :
  Forall (fun entry => exists b,
            outcome (property_call ps path entry) [] = Returned b) obj ->
  (forall entry, In entry obj -> fst entry <> k ->
     returns_true (property_call ps path entry) = true) ->
  exists app,
    errors_after (_validate_properties _validate_value obj (VDict ps) path)
                 errors = (errors ++ app)%list /\
    Forall (fun msg => String.prefix (prop_path path k) msg = true) app.
Proof.
  intros Hret Hvalid. unfold errors_after, _validate_properties.
  rewrite properties_loop_all by exact Hret. cbn [snd].
  eexists. split; [reflexivity |].
  apply Forall_concat, Forall_map, Forall_forall.
  intros [prop value] Hin.
  destruct (string_dec prop k) as [-> | Hne].
  - unfold property_call. cbn [fst snd].
    destruct (dict_get ps k) as [sub |]; [| constructor].
    destruct (under_path_validate_value value sub (prop_path path k))
      as (o & app & Happ & Hall).
    destruct (appends_run _ _ _ Happ) as [_ ->]. exact Hall.
  - rewrite returns_true_no_errors; [constructor | |].
    + unfold property_call. cbn [fst snd].
      destruct (dict_get ps prop); [apply tracked_validate_value |].
      apply tracked_ret.
    + now apply Hvalid.
Qed.

(** ** Documents without children *)

(** A check that appends at most one message and whose verdict is
    tracked returns [True] exactly when it appended none. *)
Lemma single_of_tracked_report (m : M bool) :
  (exists o app, appends m o app /\ (List.length app <= 1)%nat) ->
  tracked true m ->
  exists o app,
    appends m o app /\ (List.length app <= 1)%nat /\
    forall b, o = Returned b -> (b = true <-> app = []).
Proof.
  intros (o & app & Happ & Hlen) (o' & app' & Happ' & Hb).
  destruct (appends_unique _ _ _ _ _ Happ Happ') as [<- <-].
  exists o, app. repeat split; try assumption;
    specialize (Hb b H); tauto.
Qed.

Lemma short_ret (b : bool) :
  exists o app, appends (ret b) o app /\ (List.length app <= 1)%nat.
Proof. exists (Returned b), []. split; [apply appends_ret | cbn; lia]. Qed.

Lemma short_raise e :
  exists o app, appends (@raise bool e) o app /\ (List.length app <= 1)%nat.
Proof. exists (Raised e), []. split; [apply appends_raise | cbn; lia]. Qed.

Lemma short_report msg (b : bool) :
  exists o app,
    appends (errors_append msg ;; ret b) o app /\ (List.length app <= 1)%nat.
Proof.
  exists (Returned b), [msg]. split; [apply appends_report | cbn; lia].
Qed.

Lemma short_lift_bind {A : Type} (r : result A) (k : A -> M bool) :
  (forall a, exists o app,
      appends (k a) o app /\ (List.length app <= 1)%nat) ->
  exists o app,
    appends (bind (lift r) k) o app /\ (List.length app <= 1)%nat.
Proof.
  intros Hk. destruct r as [a | e].
  - destruct (Hk a) as (o & app & Happ & Hlen). exists o, app.
    split; [| exact Hlen]. change app with ([] ++ app)%list.
    eapply appends_bind; [apply appends_ret | exact Happ].
  - exists (Raised e), []. split; [| cbn; lia].
    apply appends_bind_raised, appends_raise.
Qed.

Lemma short_validate_type x t path :
  exists o app,
    appends (_validate_type x t path) o app /\ (List.length app <= 1)%nat.
Proof.
  unfold _validate_type.
  destruct t; apply short_lift_bind; intros [|]; cbn [negb];
    first [apply short_ret | apply short_report].
Qed.

Lemma short_validate_enum x e path :
  exists o app,
    appends (_validate_enum x e path) o app /\ (List.length app <= 1)%nat.
Proof.
  unfold _validate_enum.
  apply short_lift_bind; intros [|]; cbn [negb];
    first [apply short_ret | apply short_report].
Qed.

Lemma short_validate_pattern s p path :
  exists o app,
    appends (_validate_pattern s p path) o app /\ (List.length app <= 1)%nat.
Proof.
  unfold _validate_pattern.
  destruct (re_match p s) as [[|] | | e];
    first [apply short_ret | apply short_report | apply short_raise].
Qed.

Lemma short_keyword sch kw applicable check rest :
  (forall arg, tracked true (check arg)) ->
  (forall arg, exists o app,
      appends (check arg) o app /\ (List.length app <= 1)%nat) ->
  (exists o app, appends rest o app /\ (List.length app <= 1)%nat) ->
  exists o app,
    appends (keyword sch kw applicable check rest) o app /\
    (List.length app <= 1)%nat.
Proof.
  intros Htracked Hshort Hrest. unfold keyword.
  destruct (dict_get sch kw) as [arg |]; [| exact Hrest].
  destruct applicable; [| exact Hrest].
  destruct (single_of_tracked_report _ (Hshort arg) (Htracked arg))
    as (o & app & Happ & Hlen & Hb).
  destruct o as [[|] | e].
  - pose proof (proj1 (Hb true eq_refl) eq_refl) as Hnil. subst app.
    destruct Hrest as (o' & app' & Happ' & Hlen').
    exists o', app'. split; [| exact Hlen'].
    change app' with ([] ++ app')%list.
    eapply appends_bind; [exact Happ | exact Happ'].
  - exists (Returned false), app. split; [| exact Hlen].
    rewrite <- (app_nil_r app).
    eapply appends_bind; [exact Happ | exact (appends_ret false)].
  - exists (Raised e), app. split; [| exact Hlen].
    now apply appends_bind_raised.
Qed.

(** X17. A document that is neither an array nor an object gets at most
    one error: each of the type, enum and pattern checks appends at most
    one message and a check that fails ends the node.  This holds for
    every schema and also when the call ends with an exception. *)
Theorem scalar_document_has_at_most_one_error document schema prior :
  isinstance_list document = false ->
  isinstance_dict document = false ->
  (List.length (errors_after (validate document schema) prior) <= 1)%nat.
Proof.
  intros Hl Hd.
  assert (Hshort : exists o app,
             appends (_validate_value document schema "") o app /\
             (List.length app <= 1)%nat).
  { rewrite validate_value_unfold.
    destruct schema as [| | | | | | sch]; try apply short_report.
    apply short_keyword;
      [intros; apply tracked_validate_type
      | intros; apply short_validate_type |].
    apply short_keyword;
      [intros; apply tracked_validate_enum
      | intros; apply short_validate_enum |].
    apply short_keyword;
      [intros; destruct document;
       first [apply tracked_validate_pattern | apply tracked_ret]
      | intros; destruct document;
        first [apply short_validate_pattern | apply short_ret] |].
    rewrite Hd, Hl. unfold keyword.
    repeat match goal with
           | |- context [dict_get sch ?kw] => destruct (dict_get sch kw)
           end;
      apply short_ret. }
  destruct Hshort as (o & app & Happ & Hlen).
  unfold errors_after, validate, bind, errors_clear.
  now rewrite (Happ []).
Qed.

End Further.

(** * Properties of the [/validate] route *)

Section RouteProperties.
Context {R : Runtime} {W : WebRuntime}.

(** X14. Whatever the request holds, the answer of the route says
    [valid] exactly when its list of errors is empty: a body that is
    missing, texts that do not decode and exceptions all come with
    [valid] false and one message, and the verdict of the validator comes
    with the validator's errors. *)
Theorem route_valid_iff_no_errors (request_json : get_json_result) :
  body_valid (route_validate request_json) = true
  <-> body_errors (route_validate request_json) = [].
Proof.
  unfold route_validate, unexpected.
  destruct request_json as [data | text]; [| cbn; split; discriminate].
  destruct (truthy data); cbn [negb]; [| cbn; split; discriminate].
  destruct data; try (cbn; split; discriminate).
  destruct (py_json_loads _) as [json_obj | text | text];
    try (cbn; split; discriminate).
  destruct (py_json_loads _) as [schema_obj | text | text];
    try (cbn; split; discriminate).
  destruct (tracked_validate_value json_obj schema_obj "")
    as (o & added & Happ & Hb).
  unfold validate, bind, errors_clear. rewrite (Happ []). cbn [List.app].
  destruct o as [b | e]; [| cbn; split; discriminate].
  cbn [body_valid body_errors]. specialize (Hb b eq_refl). tauto.
Qed.

(** X15. A request object that has no [schema] key is validated against
    the default text [{}]: when that text decodes to the empty object,
    every document that decodes is answered valid with no error, the
    document being the one under [json] or, without that key, the default
    [{}] too. *)
Theorem route_without_schema_accepts d document :
  d <> [] ->
  dict_get d "schema" = None ->
  py_json_loads (dict_get_default d "json" (VStr "{}")) = Loaded document ->
  json_loads "{}" = Loaded (VDict []) ->
  route_validate (GotJson (VDict d)) = jsonify true [].
Proof.
  intros Hd Hschema Hdoc Hempty. unfold route_validate.
  destruct d as [| entry rest]; [congruence |].
  cbn [truthy negb]. rewrite Hdoc.
  unfold dict_get_default at 1. rewrite Hschema.
  cbn [py_json_loads]. rewrite Hempty.
  unfold validate, bind, errors_clear.
  rewrite validate_value_unfold. reflexivity.
Qed.

End RouteProperties.

(** * The statements on concrete documents *)

(** The schema [{"type": "object", "required": ["name"],
    "properties": {"name": {"type": "string"}}}]. *)
Definition person_schema : pyval :=
  VDict [("type", VStr "object");
         ("required", VList [VStr "name"]);
         ("properties", VDict [("name", VDict [("type", VStr "string")])])].

Lemma validate_true_iff_no_errors_witness :
  validate (VDict [("name", VInt 42)]) person_schema ["stale"]
    = (Returned false, ["name: Value '42' is not of type string"]) /\
  (false = true <-> ["name: Value '42' is not of type string"] = []).
Proof.
  split; [reflexivity |].
  apply (proj2 (@validate_true_iff_no_errors fragment_runtime
                  (VDict [("name", VInt 42)]) person_schema ["stale"]));
    reflexivity.
Defined.

Lemma type_failure_short_circuits_node_witness :
  (* a number against [type: string] with an enum it is not in *)
  _validate_value (VInt 5)
      (VDict [("type", VStr "string"); ("enum", VList [VStr "a"])]) "" []
    = (Returned false, [": Value '5' is not of type string"]) /\
  (* three elements, the last two invalid: both are reported *)
  _validate_array_items _validate_value [VInt 1; VStr "x"; VStr "y"]
      (VDict [("type", VStr "integer")]) "" []
    = (Returned false,
       ["[1]: Value 'x' is not of type integer";
        "[2]: Value 'y' is not of type integer"]) /\
  (* two properties, both invalid: both are reported *)
  _validate_properties _validate_value [("a", VInt 1); ("b", VInt 2)]
      (VDict [("a", VDict [("type", VStr "string")]);
              ("b", VDict [("type", VStr "null")])]) "" []
    = (Returned false,
       ["a: Value '1' is not of type string";
        "b: Value '2' is not of type null"]).
Proof.
  destruct (@type_failure_short_circuits_node fragment_runtime)
    as (Htype & Hitems & Hprops).
  split; [| split].
  - rewrite (proj1 (Htype (VInt 5)
                      [("type", VStr "string"); ("enum", VList [VStr "a"])]
                      "" (VStr "string") [] eq_refl eq_refl)).
    reflexivity.
  - rewrite Hitems; [reflexivity |].
    repeat constructor; eexists; reflexivity.
  - rewrite Hprops; [reflexivity |].
    repeat constructor; eexists; reflexivity.
Defined.

Lemma boolean_is_not_number_or_integer_witness :
  outcome (_validate_type (VBool true)
             (VList [VStr "number"; VStr "integer"]) "flag") []
    = Returned false /\
  outcome (validate (VBool false) (VDict [("type", VStr "integer")])) []
    = Returned false.
Proof.
  assert (Hlist : numeric_declaration (VList [VStr "number"; VStr "integer"])).
  { right. eexists. split; [reflexivity |].
    apply Forall_cons; [left; reflexivity |].
    apply Forall_cons; [right; reflexivity | apply Forall_nil]. }
  assert (Hone : numeric_declaration (VStr "integer")).
  { left. right. reflexivity. }
  split.
  - destruct (proj1 (@boolean_is_not_number_or_integer fragment_runtime
                       true _ Hlist) "flag" []) as [msg Hmsg].
    unfold outcome. now rewrite Hmsg.
  - destruct (proj2 (@boolean_is_not_number_or_integer fragment_runtime
                       false _ Hone) [("type", VStr "integer")] "" [] eq_refl)
      as [msg Hmsg].
    unfold outcome, validate, bind, errors_clear. now rewrite Hmsg.
Defined.

(** C5, as the spec words it, fails on the float [1.0]: it is a whole,
    non-boolean number and the name [integer] rejects it. *)
Lemma integer_rejects_whole_float :
  whole_numeric_non_boolean (VFloat float_one) = true /\
  _check_single_type (VFloat float_one) (VStr "integer") = Returned false /\
  validate (VFloat float_one) (VDict [("type", VStr "integer")]) []
    = (Returned false, [": Value '1.0' is not of type integer"]).
Proof. repeat split; reflexivity. Qed.

Lemma vacuous_schema_accepts_witness :
  validate (VInt 3) (VDict [("minimum", VInt 5); ("title", VStr "age")])
           ["stale"]
    = (Returned true, []).
Proof.
  apply (@vacuous_schema_accepts fragment_runtime).
  intros kw Hin. cbn in Hin.
  destruct Hin as [<- | [<- | [<- | [<- | [<- | [<- | []]]]]]]; reflexivity.
Defined.

(** The pattern [^a] on [abc] and on [bca].  On [abc] the match ends
    after one character: the pattern accepts the string without matching
    the whole of it. *)
Lemma pattern_matches_a_prefix_witness :
  outcome (_validate_pattern "abc" (VStr "^a") "") [] = Returned true /\
  outcome (_validate_pattern "bca" (VStr "^a") "") [] = Returned false /\
  re_span [ReFragment.Bol; ReFragment.One (ReFragment.Lit "a")] "abc" 1 = true /\
  re_span [ReFragment.Bol; ReFragment.One (ReFragment.Lit "a")] "abc" 3 = false.
Proof.
  destruct (@pattern_matches_a_prefix fragment_runtime "abc" "^a" _ "" []
              eq_refl) as (b & Hb & Hiff).
  destruct (@pattern_matches_a_prefix fragment_runtime "bca" "^a" _ "" []
              eq_refl) as (b' & Hb' & Hiff').
  split; [| split; [| split; reflexivity]].
  - rewrite Hb. f_equal. apply Hiff. exists 1%nat. split; [cbn; lia | reflexivity].
  - rewrite Hb'. destruct b'; [| reflexivity].
    destruct (proj1 Hiff' eq_refl) as (k & Hk & Hspan).
    discriminate Hspan.
Defined.

(** C8, as the spec words it, fails on a pattern that is not a string:
    [re.match] raises [TypeError], which is not [re.error], and the
    exception leaves [validate].  The same happens with an [enum] that is
    not a container. *)
Lemma type_error_escapes_validate :
  validate (VStr "abc") (VDict [("pattern", VInt 5)]) [] = (Raised TypeError, []) /\
  validate (VInt 1) (VDict [("enum", VInt 5)]) [] = (Raised TypeError, []).
Proof. split; reflexivity. Qed.

Lemma regex_error_is_reported_witness :
  _validate_pattern "bca" (VStr "*a") "" []
    = (Returned false, [": Invalid regex pattern '*a'"]) /\
  exists b errors,
    validate (VDict [("name", VInt 42)]) person_schema ["stale"]
      = (Returned b, errors).
Proof.
  split.
  - apply (proj1 (@regex_error_is_reported fragment_runtime) "bca" "*a" "" []).
    reflexivity.
  - apply (proj2 (@regex_error_is_reported fragment_runtime)). reflexivity.
Defined.

(** An empty object against [required: ["a", "b"]]: two messages. *)
Lemma required_reports_every_missing_name_witness :
  _validate_required [] (VList [VStr "a"; VStr "b"]) "" []
    = (Returned false,
       [": Missing required property 'a'"; ": Missing required property 'b'"]) /\
  count_occ string_dec
    [": Missing required property 'a'"; ": Missing required property 'b'"]
    ": Missing required property 'b'" = 1%nat.
Proof.
  destruct (@required_reports_every_missing_name fragment_runtime
              [] ["a"; "b"] "" []) as (Hrun & _ & Hone).
  split; [exact Hrun |].
  apply (Hone ltac:(repeat constructor; cbn; intuition discriminate) "b").
  - cbn. tauto.
  - reflexivity.
Defined.

Lemma root_messages_start_with_colon_space_witness :
  validate (VInt 1) (VInt 3) ["stale"]
    = (Returned false, [": Schema must be an object"]) /\
  Forall (fun msg => String.prefix ": " msg = true)
    (errors_after
       (validate (VDict [])
          (VDict [("type", VStr "object");
                  ("required", VList [VStr "a"; VStr "b"])])) []).
Proof.
  destruct (@root_messages_start_with_colon_space fragment_runtime)
    as (Hshape & _ & _ & _ & _ & Hall).
  split.
  - apply Hshape. reflexivity.
  - apply Hall; reflexivity.
Defined.

(** * The further statements on concrete documents *)

Lemma only_the_invalid_item_is_reported_witness :
  exists app,
    errors_after
      (_validate_array_items _validate_value [VInt 1; VInt 2; VStr "x"]
         (VDict [("type", VStr "integer")]) "") []
      = ([] ++ app)%list /\
    Forall (fun msg => String.prefix (item_path "" 2) msg = true) app.
Proof.
  apply (@only_the_invalid_item_is_reported fragment_runtime).
  - repeat constructor; eexists; reflexivity.
  - intros entry Hin Hne. cbn in Hin.
    destruct Hin as [<- | [<- | [<- | []]]];
      first [reflexivity | now exfalso; apply Hne].
Defined.

Lemma kinds_split_the_values_witness :
  _check_single_type (VInt 3) (VStr "number") = Returned true.
Proof.
  apply (proj2 (kinds_split_the_values (VInt 3))). reflexivity.
Defined.

Lemma unknown_type_name_rejects_witness :
  exists msg,
    _validate_value (VInt 1) (VDict [("type", VStr "text")]) "" []
      = (Returned false, ([] ++ [msg])%list).
Proof.
  apply (proj2 (@unknown_type_name_rejects fragment_runtime)
           (VInt 1) (VStr "text")).
  - reflexivity.
  - intros name [= <-] Hin. cbn in Hin. intuition discriminate.
  - reflexivity.
Defined.

(** The entry after the accepting name cannot be hashed and is never
    reached. *)
Lemma type_list_is_a_disjunction_witness :
  _validate_type (VStr "a") (VList [VStr "null"; VStr "string"; VList []])
                 "" []
    = (Returned true, []).
Proof.
  apply (proj2 (@type_list_is_a_disjunction fragment_runtime (VStr "a") "" [])
           [VStr "null"] (VStr "string") [VList []]).
  - repeat constructor.
  - reflexivity.
Defined.


(** The string [abc] fails both the enum and the pattern; the enum alone
    is reported. *)
Lemma enum_failure_ends_the_node_witness :
  _validate_value (VStr "abc")
      (VDict [("type", VStr "string"); ("enum", VList [VStr "x"]);
              ("pattern", VStr "^b")]) "" []
    = (Returned false, [": Value 'abc' is not in enum ['x']"]).
Proof.
  rewrite (@enum_failure_ends_the_node fragment_runtime (VStr "abc")
             [("type", VStr "string"); ("enum", VList [VStr "x"]);
              ("pattern", VStr "^b")] "" (VList [VStr "x"]) []).
  - reflexivity.
  - intros t [= <-]. reflexivity.
  - reflexivity.
  - reflexivity.
Defined.

(** An object without [name] and with an [age] of the wrong type: the
    missing name alone is reported. *)
Lemma missing_property_hides_the_properties_witness :
  _validate_value (VDict [("age", VStr "x")])
      (VDict [("type", VStr "object"); ("required", VList [VStr "name"]);
              ("properties", VDict [("age", VDict [("type", VStr "integer")])])])
      "" []
    = (Returned false, [": Missing required property 'name'"]).
Proof.
  rewrite (@missing_property_hides_the_properties fragment_runtime
             [("age", VStr "x")]
             [("type", VStr "object"); ("required", VList [VStr "name"]);
              ("properties", VDict [("age", VDict [("type", VStr "integer")])])]
             "" (VList [VStr "name"]) []).
  - reflexivity.
  - intros t [= <-]. reflexivity.
  - intros e [=].
  - reflexivity.
  - reflexivity.
Defined.

Lemma inapplicable_keywords_are_ignored_witness :
  validate (VInt 3)
      (VDict [("pattern", VInt 5); ("required", VInt 1); ("items", VStr "no")])
      ["stale"]
    = (Returned true, []).
Proof.
  apply (@inapplicable_keywords_are_ignored fragment_runtime).
  intros kw Hin. cbn in Hin. destruct Hin as [<- | [<- | []]]; reflexivity.
Defined.

Lemma undeclared_properties_are_ignored_witness :
  _validate_properties _validate_value [("a", VInt 1)]
      (VDict [("b", VDict [("type", VStr "string")])]) "" []
    = (Returned true, []).
Proof.
  apply (proj2 (@undeclared_properties_are_ignored fragment_runtime
                  [("a", VInt 1)] [("b", VDict [("type", VStr "string")])]
                  "" [])).
  intros entry Hin. cbn in Hin. destruct Hin as [<- | []]. reflexivity.
Defined.

Lemma items_that_is_no_schema_witness :
  _validate_array_items _validate_value [VInt 1; VInt 2] (VInt 5) "xs" []
    = (Returned false,
       ["xs[0]: Schema must be an object"; "xs[1]: Schema must be an object"]).
Proof.
  apply (@items_that_is_no_schema fragment_runtime [VInt 1; VInt 2] (VInt 5)
           "xs" []).
  reflexivity.
Defined.


Lemma route_without_schema_accepts_witness :
  route_validate (GotJson (VDict [("json", VStr "[]")])) = jsonify true [].
Proof.
  apply (@route_without_schema_accepts fragment_runtime fragment_web
           [("json", VStr "[]")] (VList [])).
  - discriminate.
  - reflexivity.
  - reflexivity.
  - reflexivity.
Defined.

Lemma only_the_invalid_property_is_reported_witness :
  exists app,
    errors_after
      (_validate_properties _validate_value
         [("a", VStr "ok"); ("b", VInt 2)]
         (VDict [("a", VDict [("type", VStr "string")]);
                 ("b", VDict [("type", VStr "null")])]) "doc") []
      = ([] ++ app)%list /\
    Forall (fun msg => String.prefix (prop_path "doc" "b") msg = true) app.
Proof.
  apply (@only_the_invalid_property_is_reported fragment_runtime).
  - repeat constructor; eexists; reflexivity.
  - intros entry Hin Hne. cbn in Hin.
    destruct Hin as [<- | [<- | []]];
      first [reflexivity | now exfalso; apply Hne].
Defined.

Lemma scalar_document_has_at_most_one_error_witness :
  (List.length
     (errors_after
        (validate (VStr "abc")
           (VDict [("enum", VList [VStr "x"]); ("pattern", VStr "^b")]))
        ["stale"]) <= 1)%nat.
Proof.
  apply (@scalar_document_has_at_most_one_error fragment_runtime);
    reflexivity.
Defined.
